(** * vumi.application.rapidsms_relay

    A shallow embedding of [src/vumi/application/rapidsms_relay.py] (the
    RapidSMS relay application of vumi, Python 2 on Twisted) and the
    properties of its authentication and dispatch pipeline.

    Conventions of the embedding:
    - a Python 2 byte string ([str]) is a [string]: one [ascii] per byte;
    - a text value (a [unicode] object, or a [str] holding ASCII only, which
      is what the configuration loader and [json.loads] hand to this
      module) is a [text]: the list of its code points.  On such values the
      operations this module uses ([==], [join], [encode('utf-8')], use as a
      dict key) depend on the code points only;
    - Python [None] in an optional field is [None] of [option];
    - a raised exception is the [Raise] case of [result];
    - a Twisted Deferred is represented by the way it fires: an [outcome]. *)

From Stdlib Require Import NArith Ascii String List Bool Lia Permutation.
From stdpp Require Import gmap strings list fin_maps.

Local Open Scope string_scope.
Local Open Scope list_scope.

(** ** Python values shared by the whole module *)

Module Py.

(** Code points and text. *)
Definition codepoint := N.
Definition text := list codepoint.

(** The text denoted by an ASCII literal of the source. *)
Definition u (s : string) : text := map N_of_ascii (list_ascii_of_string s).

(** The exceptions this module can raise or let through. *)
Inductive exn :=
| ValueError
| KeyError (key : text)
| TypeError
| NameError (name : string)
| AttributeError
| ConfigError (auth_method : option text)
| UnauthorizedLogin
| Exception (message : string).

Inductive result (A : Type) :=
| Ok (a : A)
| Raise (e : exn).
Arguments Ok {A} a.
Arguments Raise {A} e.

Definition bind {A B} (r : result A) (k : A -> result B) : result B :=
  match r with
  | Ok a => k a
  | Raise e => Raise e
  end.

Definition opt_bind {A B} (o : option A) (k : A -> option B) : option B :=
  match o with Some a => k a | None => None end.

(** [sep.join(items)]: every item must be a string; [None] among them is
    a [TypeError]. *)
Fixpoint join (sep : text) (items : list (option text)) : result text :=
  match items with
  | [] => Ok []
  | None :: _ => Raise TypeError
  | Some s :: rest =>
      match rest with
      | [] => Ok s
      | _ :: _ => bind (join sep rest) (fun r => Ok (s ++ sep ++ r))
      end
  end.

End Py.

Notation "x <- c1 ;; c2" := (Py.bind c1 (fun x => c2))
  (at level 100, c1 at next level, right associativity).

(** ** [text.encode('utf-8')] *)

Module Utf8.
Import Py.
Local Open Scope N_scope.

Definition byte (n : N) : ascii := ascii_of_N n.

(** The bytes of one code point. *)
Definition encode_codepoint (c : codepoint) : list ascii :=
  if c <? 0x80 then [byte c]
  else if c <? 0x800 then
    [byte (0xC0 + c / 0x40); byte (0x80 + c mod 0x40)]
  else if c <? 0x10000 then
    [byte (0xE0 + c / 0x1000); byte (0x80 + (c / 0x40) mod 0x40);
     byte (0x80 + c mod 0x40)]
  else
    [byte (0xF0 + c / 0x40000); byte (0x80 + (c / 0x1000) mod 0x40);
     byte (0x80 + (c / 0x40) mod 0x40); byte (0x80 + c mod 0x40)].

Definition encode_list (t : text) : list ascii :=
  flat_map encode_codepoint t.

Definition encode (t : text) : string :=
  string_of_list_ascii (encode_list t).

(** [bytes.decode('utf-8')], as far as the round trip needs it: every
    sequence the encoder produces is read back; overlong forms are not
    rejected. *)

(** The six payload bits of a continuation byte [10xxxxxx]. *)
Definition continuation (b : ascii) : option N :=
  let n := N_of_ascii b in
  if (0x80 <=? n) && (n <? 0xC0) then Some (n - 0x80) else None.

Fixpoint decode_list (l : list ascii) : option text :=
  match l with
  | [] => Some []
  | b0 :: rest =>
      let n := N_of_ascii b0 in
      if n <? 0x80 then
        opt_bind (decode_list rest) (fun t => Some (n :: t))
      else if n <? 0xC0 then None
      else if n <? 0xE0 then
        match rest with
        | b1 :: rest =>
            opt_bind (continuation b1) (fun c1 =>
            opt_bind (decode_list rest) (fun t =>
              Some ((n - 0xC0) * 0x40 + c1 :: t)))
        | _ => None
        end
      else if n <? 0xF0 then
        match rest with
        | b1 :: b2 :: rest =>
            opt_bind (continuation b1) (fun c1 =>
            opt_bind (continuation b2) (fun c2 =>
            opt_bind (decode_list rest) (fun t =>
              Some ((n - 0xE0) * 0x1000 + c1 * 0x40 + c2 :: t))))
        | _ => None
        end
      else if n <? 0xF8 then
        match rest with
        | b1 :: b2 :: b3 :: rest =>
            opt_bind (continuation b1) (fun c1 =>
            opt_bind (continuation b2) (fun c2 =>
            opt_bind (continuation b3) (fun c3 =>
            opt_bind (decode_list rest) (fun t =>
              Some ((n - 0xF0) * 0x40000 + c1 * 0x1000 + c2 * 0x40 + c3 :: t)))))
        | _ => None
        end
      else None
  end.

Definition decode (s : string) : option text :=
  decode_list (list_ascii_of_string s).

(** Code points of Unicode: up to U+10FFFF. *)
Definition valid (t : text) : Prop := Forall (fun c => c < 0x110000) t.

End Utf8.

(** ** [base64.b64encode] and [base64.b64decode] (RFC 4648, standard alphabet) *)

Module Base64.
Import Py.

(** Six bits, most significant first. *)
Inductive sextet := Sextet (b5 b4 b3 b2 b1 b0 : bool).

Definition alphabet : list ascii :=
  list_ascii_of_string
    "ABCDEFGHIJKLMNOPQRSTUVWXYZabcdefghijklmnopqrstuvwxyz0123456789+/".

Definition pad : ascii := "="%char.

Definition bit (b : bool) (w : nat) : nat := if b then w else 0%nat.

Definition index (s : sextet) : nat :=
  let 'Sextet b5 b4 b3 b2 b1 b0 := s in
  (bit b5 32 + bit b4 16 + bit b3 8 + bit b2 4 + bit b1 2 + bit b0 1)%nat.

Definition of_index (n : nat) : sextet :=
  Sextet (Nat.testbit n 5) (Nat.testbit n 4) (Nat.testbit n 3)
         (Nat.testbit n 2) (Nat.testbit n 1) (Nat.testbit n 0).

Definition chr (s : sextet) : ascii := nth (index s) alphabet pad.

Fixpoint find_index (c : ascii) (l : list ascii) (i : nat) : option nat :=
  match l with
  | [] => None
  | x :: l' => if Ascii.eqb c x then Some i else find_index c l' (S i)
  end.

Definition val (c : ascii) : option sextet :=
  match find_index c alphabet 0 with
  | Some i => Some (of_index i)
  | None => None
  end.

(** Regrouping of 3 bytes into 4 sextets and back.  The first bit of
    [Ascii] is the least significant one. *)
Definition first (a : ascii) : sextet :=
  let 'Ascii a0 a1 a2 a3 a4 a5 a6 a7 := a in Sextet a7 a6 a5 a4 a3 a2.
Definition second (a b : ascii) : sextet :=
  let 'Ascii a0 a1 a2 a3 a4 a5 a6 a7 := a in
  let 'Ascii b0 b1 b2 b3 b4 b5 b6 b7 := b in Sextet a1 a0 b7 b6 b5 b4.
Definition third (b c : ascii) : sextet :=
  let 'Ascii b0 b1 b2 b3 b4 b5 b6 b7 := b in
  let 'Ascii c0 c1 c2 c3 c4 c5 c6 c7 := c in Sextet b3 b2 b1 b0 c7 c6.
Definition fourth (c : ascii) : sextet :=
  let 'Ascii c0 c1 c2 c3 c4 c5 c6 c7 := c in Sextet c5 c4 c3 c2 c1 c0.

Definition byte1 (s1 s2 : sextet) : ascii :=
  let 'Sextet p5 p4 p3 p2 p1 p0 := s1 in
  let 'Sextet q5 q4 q3 q2 q1 q0 := s2 in Ascii q4 q5 p0 p1 p2 p3 p4 p5.
Definition byte2 (s2 s3 : sextet) : ascii :=
  let 'Sextet q5 q4 q3 q2 q1 q0 := s2 in
  let 'Sextet r5 r4 r3 r2 r1 r0 := s3 in Ascii r2 r3 r4 r5 q0 q1 q2 q3.
Definition byte3 (s3 s4 : sextet) : ascii :=
  let 'Sextet r5 r4 r3 r2 r1 r0 := s3 in
  let 'Sextet t5 t4 t3 t2 t1 t0 := s4 in Ascii t0 t1 t2 t3 t4 t5 r0 r1.

Definition zero : ascii := Ascii.zero.

Fixpoint encode_bytes (l : list ascii) : list ascii :=
  match l with
  | [] => []
  | [a] => [chr (first a); chr (second a zero); pad; pad]
  | [a; b] => [chr (first a); chr (second a b); chr (third b zero); pad]
  | a :: b :: c :: rest =>
      chr (first a) :: chr (second a b) :: chr (third b c)
        :: chr (fourth c) :: encode_bytes rest
  end.

Fixpoint decode_chars (l : list ascii) : option (list ascii) :=
  match l with
  | [] => Some []
  | c1 :: c2 :: c3 :: c4 :: rest =>
      opt_bind (val c1) (fun s1 =>
      opt_bind (val c2) (fun s2 =>
        if Ascii.eqb c4 pad then
          match rest with
          | [] =>
              if Ascii.eqb c3 pad then Some [byte1 s1 s2]
              else opt_bind (val c3) (fun s3 =>
                     Some [byte1 s1 s2; byte2 s2 s3])
          | _ :: _ => None
          end
        else
          opt_bind (val c3) (fun s3 =>
          opt_bind (val c4) (fun s4 =>
          opt_bind (decode_chars rest) (fun tl =>
            Some (byte1 s1 s2 :: byte2 s2 s3 :: byte3 s3 s4 :: tl))))))
  | _ => None
  end.

Definition b64encode (s : string) : string :=
  string_of_list_ascii (encode_bytes (list_ascii_of_string s)).

Definition b64decode (s : string) : option string :=
  match decode_chars (list_ascii_of_string s) with
  | Some l => Some (string_of_list_ascii l)
  | None => None
  end.

End Base64.

(** ** Decoded JSON documents, as [json.loads] returns them *)

Module Json.
Import Py.

(** An object lists its members in the iteration order of the decoded
    dict; its keys are distinct. *)
#[local] Set Warnings "-register-all".
Inductive json :=
| JNull
| JBool (b : bool)
| JNumber (lexeme : string)
| JString (s : text)
| JArray (items : list json)
| JObject (members : list (text * json)).

Fixpoint assoc (key : text) (members : list (text * json)) : option json :=
  match members with
  | [] => None
  | (k, v) :: rest => if decide (k = key) then Some v else assoc key rest
  end.

(** [data[key]] for a string key. *)
Definition getitem (data : json) (key : text) : result json :=
  match data with
  | JObject members =>
      match assoc key members with
      | Some v => Ok v
      | None => Raise (KeyError key)
      end
  | _ => Raise TypeError
  end.

(** [key in data], used by the relay once [data[...]] has succeeded, so
    on a dict only. *)
Definition contains (key : text) (data : json) : bool :=
  match data with
  | JObject members => bool_decide (is_Some (assoc key members))
  | _ => false
  end.

(** The values a [for] loop over [v] visits: the items of a list, the
    characters of a string, the keys of a dict; other values are not
    iterable. *)
Definition iter (v : json) : result (list json) :=
  match v with
  | JArray items => Ok items
  | JString s => Ok (map (fun c => JString [c]) s)
  | JObject members => Ok (map (fun kv => JString (fst kv)) members)
  | JNull | JBool _ | JNumber _ => Raise TypeError
  end.

(** [[x] = v]: unpacking into exactly one target. *)
Definition unpack1 (v : json) : result json :=
  items <- iter v ;;
  match items with
  | [x] => Ok x
  | _ => Raise ValueError
  end.

End Json.

(** ** The part of [twisted.internet.defer] the relay uses *)

Module Twisted.
Import Py.

(** A [Failure] wraps what was raised. *)
Inductive Failure := failure (value : string).

(** How a Deferred fires: its callback chain is entered either with a
    result or with a [Failure]. *)
Inductive outcome (A : Type) :=
| Success (a : A)
| Errback (f : Failure).
Arguments Success {A} a.
Arguments Errback {A} f.


Section DeferredList.
(** The results the member Deferreds fire with. *)
Context {A : Type}.

(** What a slot of [resultList] ends up holding: the success value or
    the [Failure]. *)
Inductive value :=
| Result (a : A)
| Failed (f : Failure).

(** [DeferredList(deferredList, consumeErrors=True)], with neither
    [fireOnOneCallback] nor [fireOnOneErrback], after
    [twisted/internet/defer.py]:
<<
    def _cbDeferred(self, result, index, succeeded):
        self.resultList[index] = (succeeded, result)
        self.finishedCount += 1
        if not self.called:
            ...
            elif self.finishedCount == len(self.resultList):
                self.callback(self.resultList)
>>
    [called] holds the list the DeferredList fired its own callback with
    ([None] while it has not fired). *)
Record DeferredList := {
  resultList : list (option (bool * value));
  finishedCount : nat;
  called : option (list (option (bool * value)))
}.

(** [__init__]: [resultList = [None] * len(deferredList)]; an empty
    list fires at once. *)
Definition init (n : nat) : DeferredList :=
  let resultList := replicate n None in
  {| resultList := resultList;
     finishedCount := 0;
     called := if decide (n = 0) then Some resultList else None |}.

(** [_cbDeferred(result, index, succeeded)], attached to member
    [index] as callback with [succeeded = True] and as errback with
    [succeeded = False].  [index] is the position of a member, so it lies
    within [resultList]. *)
Definition _cbDeferred (self : DeferredList)
    (result : value) (index : nat) (succeeded : bool) : DeferredList :=
  let resultList := <[index := Some (succeeded, result)]> (resultList self) in
  let finishedCount := S (finishedCount self) in
  {| resultList := resultList;
     finishedCount := finishedCount;
     called :=
       match called self with
       | Some fired => Some fired
       | None =>
           if decide (finishedCount = length resultList)
           then Some resultList else None
       end |}.

(** Member [index] fires with [o]. *)
Definition fire (self : DeferredList) (ev : nat * outcome A) : DeferredList :=
  match ev.2 with
  | Success a => _cbDeferred self (Result a) ev.1 true
  | Errback f => _cbDeferred self (Failed f) ev.1 false
  end.

(** The members fire one after the other, in the order of [events]. *)
Definition run (self : DeferredList) (events : list (nat * outcome A))
  : DeferredList :=
  foldl fire self events.

Definition entry (o : outcome A) : bool * value :=
  match o with
  | Success a => (true, Result a)
  | Errback f => (false, Failed f)
  end.

(** The effect of one firing on [resultList]. *)
Definition store (l : list (option (bool * value))) (ev : nat * outcome A) :=
  <[ev.1 := Some (entry ev.2)]> l.

End DeferredList.
Arguments value A : clear implicits.
Arguments DeferredList A : clear implicits.

End Twisted.

(** ** The relay *)

Module Relay.
Import Py Json Twisted.
Export Py Json Twisted.

(** A vumi message is its payload dict. *)
Record Message := { payload : json }.

(** [twisted.cred.credentials]: what the HTTP layer hands to the access
    checker. *)
Inductive Credentials :=
| Anonymous
| UsernamePassword (username password : text)
| OtherCredentials.

(** [ConfigContext(username=...)]. *)
Record ConfigContext := { username : option text }.

(** What a [ConfigUrl] field holds: the parsed URL ([urlparse] result).
    The relay only ever calls [geturl()] on it, so the parsed URL is
    represented by the text that [geturl()] returns for it; this is the
    configured text re-assembled (scheme in lower case, an empty query or
    fragment dropped), not necessarily the text as it was typed. *)
Definition ParseResult := string.

(** [RapidSMSRelayConfig]; an unset field is [None]. *)
Record RapidSMSRelayConfig := {
  web_path : option text;
  web_port : option N;
  redis_manager : json;
  allow_replies : bool;
  vumi_username : option text;
  vumi_password : option text;
  vumi_auth_method : option text;
  vumi_reply_timeout : option N;
  rapidsms_url : option ParseResult;
  rapidsms_username : option text;
  rapidsms_password : option text;
  rapidsms_auth_method : option text;
  rapidsms_http_method : option text
}.

(** Header name to header values. *)
Abbreviation Headers := (gmap string (list string)).

(** The store behind [self.redis]: message id to stored message. *)
Abbreviation TxRedisManager := (gmap text Message).

(** The attributes of the worker that this module sets and reads. *)
Record RapidSMSRelay := {
  static_config : RapidSMSRelayConfig;
  supported_auth_methods :
    gmap text (option text -> option text -> result Headers);
  redis : option TxRedisManager
}.

(** The response side of a [twisted.web] request. *)
Record Request := {
  content : option json;      (* json.loads(request.content.read()),
                                 None when it raises ValueError; a body
                                 nested too deep for the decoder is not
                                 modelled *)
  responseHeaders : list (string * string);
  responseCode : option N;
  written : list string;
  finished : bool
}.

Definition OK : N := 200.

Definition setHeader (name value : string) (request : Request) : Request :=
  {| content := content request;
     responseHeaders := (name, value) :: responseHeaders request;
     responseCode := responseCode request;
     written := written request;
     finished := finished request |}.

Definition setResponseCode (code : N) (request : Request) : Request :=
  {| content := content request;
     responseHeaders := responseHeaders request;
     responseCode := Some code;
     written := written request;
     finished := finished request |}.

Definition write (data : string) (request : Request) : Request :=
  {| content := content request;
     responseHeaders := responseHeaders request;
     responseCode := responseCode request;
     written := written request ++ [data];
     finished := finished request |}.

Definition finish (request : Request) : Request :=
  {| content := content request;
     responseHeaders := responseHeaders request;
     responseCode := responseCode request;
     written := written request;
     finished := true |}.

(** The operations [handle_raw_outbound_message] puts into [sends]; each
    stands for the Deferred the call returns. *)
Inductive send_op :=
| SendTo (to_addr content : json)              (* self.send_to(to_addr, content) *)
| ReplyTo (original_message : Message) (content : json)
                                               (* self.reply_to(original_message, content) *)
| Fail (result : string).                      (* fail(result) *)

(** What [handle_raw_outbound_message] returns: the DeferredList [d] over
    [sends] (its callback is [succeeded_results] below). *)
Record Dispatch := {
  sends : list send_op;
  d : DeferredList Message
}.

Inductive LogEntry :=
| info (code : N)
| err (reason : Failure).

Record Response := { code : N }.

(** What the render method has made of the request so far. *)
Inductive rendering :=
| NotDoneYet (request : Request)
| Finished (request : Request)
| CallbackError (e : exn).

Section Worker.

(** Collaborators outside this module. *)
Variable to_json : json -> string.                    (* vumi.message.to_json *)
Variable message_to_json : Message -> string.         (* message.to_json() *)
Variable get_config :
  option Message -> option ConfigContext -> RapidSMSRelayConfig.
                                                      (* self.get_config *)
Variable http_request_full :
  string -> string -> Headers -> option text -> outcome Response.
                                                      (* vumi.utils.http_request_full *)
Variable from_config : json -> TxRedisManager.        (* TxRedisManager.from_config *)

(** *** Outbound authentication *)

Definition generate_basic_auth_headers (username password : option text)
  : result Headers :=
  credentials <- join (u ":") [username; password] ;;
  let auth_string := Base64.b64encode (Utf8.encode credentials) in
  Ok {[ "Authorization" := ["Basic " +:+ auth_string] ]}.

Definition validate_config (self : RapidSMSRelay) : RapidSMSRelay :=
  {| static_config := static_config self;
     supported_auth_methods := {[ u "basic" := generate_basic_auth_headers ]};
     redis := redis self |}.

(** [key in methods] and [methods.get(key)] for a key that may be
    [None]. *)
Definition get_method {V} (methods : gmap text V) (key : option text) : option V :=
  match key with
  | Some k => methods !! k
  | None => None
  end.

Definition get_auth_headers (self : RapidSMSRelay) (config : RapidSMSRelayConfig)
  : result Headers :=
  let '(auth_method, username, password) :=
    (rapidsms_auth_method config, rapidsms_username config,
     rapidsms_password config) in
  if negb (bool_decide (is_Some (get_method (supported_auth_methods self) auth_method)))
  then Raise (ConfigError auth_method)
  else
    match username with
    | Some _ =>
        match get_method (supported_auth_methods self) auth_method with
        | Some handler => handler username password
        | None => Raise TypeError
        end
    | None => Ok ∅
    end.

(** *** Inbound authentication *)

Definition get_avatar_id (creds : Credentials) : result (option text) :=
  match creds with
  | Anonymous =>
      let config := get_config None (Some {| username := None |}) in
      match vumi_username config with
      | None => Ok None
      | Some _ => Raise UnauthorizedLogin
      end
  | UsernamePassword username password =>
      let config := get_config None (Some {| username := Some username |}) in
      if bool_decide (Some username = vumi_username config)
         && bool_decide (Some password = vumi_password config)
      then Ok (Some username)
      else Raise UnauthorizedLogin
  | OtherCredentials => Raise UnauthorizedLogin
  end.

(** [RapidSMSRelayAccessChecker.requestAvatarId]. *)
Definition requestAvatarId := get_avatar_id.

(** *** Start-up *)

Definition setup_application (self : RapidSMSRelay) : RapidSMSRelay :=
  let config := static_config self in
  {| static_config := static_config self;
     supported_auth_methods := supported_auth_methods self;
     redis := if allow_replies config
              then Some (from_config (redis_manager config))
              else None |}.

(** *** Dispatch of an outbound request *)

Definition handle_raw_outbound_message (self : RapidSMSRelay) (request : Request)
  : result Dispatch :=
  match content request with
  | None => Raise ValueError
  | Some data =>
      content <- getitem data (u "content") ;;
      to_addrs <- getitem data (u "to_addr") ;;
      sends <-
        (if contains (u "in_reply_to") data && false then
           (* the branch names [original_message], which nothing binds *)
           to_addr <- unpack1 to_addrs ;;
           Raise (NameError "original_message")
         else
           to_addrs <- iter to_addrs ;;
           Ok (map (fun to_addr => SendTo to_addr content) to_addrs)) ;;
      Ok {| sends := sends; d := init (length sends) |}
  end.

(** The callback added to [d]: [lambda msgs: [msg[1] for msg in msgs if msg[0]]]. *)
Fixpoint succeeded_results (msgs : list (option (bool * value Message)))
  : result (list (value Message)) :=
  match msgs with
  | [] => Ok []
  | None :: _ => Raise TypeError
  | Some msg :: msgs =>
      rest <- succeeded_results msgs ;;
      Ok (if msg.1 then msg.2 :: rest else rest)
  end.

(** The result of the Deferred that [handle_raw_outbound_message]
    returned, after the sends have fired as [events] tells: [None]
    while it has not fired. *)
Definition result_after (dispatch : Dispatch) (events : list (nat * outcome Message))
  : option (result (list (value Message))) :=
  succeeded_results <$> called (run (d dispatch) events).

(** [msg.payload for msg in msgs]. *)
Fixpoint payloads (msgs : list (value Message)) : result (list json) :=
  match msgs with
  | [] => Ok []
  | Result msg :: msgs => rest <- payloads msgs ;; Ok (payload msg :: rest)
  | Failed _ :: _ => Raise AttributeError
  end.

Definition finish_request (request : Request) (msgs : list (value Message))
  : result Request :=
  let request := setResponseCode OK request in
  ps <- payloads msgs ;;
  Ok (finish (write (to_json (JArray ps)) request)).

Definition render_ (self : RapidSMSRelay) (request : Request)
    (events : list (nat * outcome Message)) : result rendering :=
  let request := setHeader "content-type" "application/json" request in
  dispatch <- handle_raw_outbound_message self request ;;
  Ok match called (run (d dispatch) events) with
     | None => NotDoneYet request
     | Some msgs =>
         match (msgs <- succeeded_results msgs ;; finish_request request msgs) with
         | Ok request => Finished request
         | Raise e => CallbackError e
         end
     end.

Definition render_PUT := render_.
Definition render_GET := render_.
Definition render_POST := render_.

(** *** Forwarding to RapidSMS *)

(** [d.addCallback(f)] and [d.addErrback(f)] for an [f] that logs and
    returns [None]. *)
Definition addCallback {A} (d : outcome A) (f : A -> list LogEntry)
  : outcome unit * list LogEntry :=
  match d with
  | Success a => (Success tt, f a)
  | Errback reason => (Errback reason, [])
  end.

Definition addErrback (d : outcome unit) (f : Failure -> list LogEntry)
  : outcome unit * list LogEntry :=
  match d with
  | Success a => (Success a, [])
  | Errback reason => (Success tt, f reason)
  end.

(** [config.rapidsms_url.geturl()]: the text of the parsed URL, and an
    [AttributeError] when the field is unset. *)
Definition geturl (url : option ParseResult) : result string :=
  match url with
  | Some url => Ok url
  | None => Raise AttributeError
  end.

(** [yield d] inside [inlineCallbacks]. *)
Definition yield_ {A} (d : outcome A) : result A :=
  match d with
  | Success a => Ok a
  | Errback (failure value) => Raise (Exception value)
  end.

Definition _call_rapidsms (self : RapidSMSRelay) (message : Message)
  : result unit * list LogEntry :=
  let config := get_config (Some message) None in
  match
    (headers <- get_auth_headers self config ;;
     url <- geturl (rapidsms_url config) ;;
     Ok (http_request_full url (message_to_json message) headers
           (rapidsms_http_method config)))
  with
  | Raise e => (Raise e, [])
  | Ok response =>
      let '(response, log1) :=
        addCallback response (fun response => [info (code response)]) in
      let '(response, log2) :=
        addErrback response (fun reason => [err reason]) in
      (yield_ response, log1 ++ log2)
  end.

Definition consume_user_message := _call_rapidsms.
Definition close_session := _call_rapidsms.

(** *** Vocabulary of the statements about the worker *)

(** The configuration [get_avatar_id] resolves for a login name. *)
Definition config_for (name : option text) : RapidSMSRelayConfig :=
  get_config None (Some {| username := name |}).

(** Anonymous credentials while no [vumi_username] is configured. *)
Definition anonymous_allowed (creds : Credentials) : Prop :=
  creds = Anonymous /\ vumi_username (config_for None) = None.

(** A username and password equal to the configured pair. *)
Definition password_matches (creds : Credentials) : Prop :=
  exists name password,
    creds = UsernamePassword name password /\
    vumi_username (config_for (Some name)) = Some name /\
    vumi_password (config_for (Some name)) = Some password.

(** What the two callbacks log for the way the HTTP call ended. *)
Definition logged (response : outcome Response) : LogEntry :=
  match response with
  | Success response => info (code response)
  | Errback reason => err reason
  end.

(** The request once [finish_request] has answered it with [msgs]. *)
Definition answered (request : Request) (msgs : list Message) : Request :=
  finish
    (write (to_json (JArray (payload <$> msgs)))
       (setResponseCode OK
          (setHeader "content-type" "application/json" request))).

End Worker.

(** The defaults of [RapidSMSRelayConfig]. *)
Definition defaults : RapidSMSRelayConfig :=
  {| web_path := None;
     web_port := None;
     redis_manager := JObject [];
     allow_replies := true;
     vumi_username := None;
     vumi_password := None;
     vumi_auth_method := Some (u "basic");
     vumi_reply_timeout := Some (10 * 60)%N;
     rapidsms_url := None;
     rapidsms_username := None;
     rapidsms_password := None;
     rapidsms_auth_method := Some (u "basic");
     rapidsms_http_method := Some (u "POST") |}.

(** The defaults with the three settings [get_auth_headers] reads. *)
Definition rapidsms_auth (auth_method username password : option text)
  : RapidSMSRelayConfig :=
  {| web_path := web_path defaults;
     web_port := web_port defaults;
     redis_manager := redis_manager defaults;
     allow_replies := allow_replies defaults;
     vumi_username := vumi_username defaults;
     vumi_password := vumi_password defaults;
     vumi_auth_method := vumi_auth_method defaults;
     vumi_reply_timeout := vumi_reply_timeout defaults;
     rapidsms_url := Some "http://example.com/rapidsms";
     rapidsms_username := username;
     rapidsms_password := password;
     rapidsms_auth_method := auth_method;
     rapidsms_http_method := rapidsms_http_method defaults |}.

(** A worker before [validate_config] and [setup_application] have run. *)
Definition new_worker (config : RapidSMSRelayConfig) : RapidSMSRelay :=
  {| static_config := config; supported_auth_methods := ∅; redis := None |}.


(** *** Vocabulary of the statements about dispatch *)

(** The messages of the sends that succeeded, in the order of the sends. *)
Definition dispatched (outs : list (outcome Message)) : list Message :=
  omap (fun o => match o with Success msg => Some msg | Errback _ => None end) outs.

(** The messages of the sends that succeeded, in the order in which the
    sends completed. *)
Definition completed (events : list (nat * outcome Message)) : list Message :=
  dispatched events.*2.

(** The sends of the fresh-send path: one [send_to] per address. *)
Definition fresh_sends (to_addrs : list json) (content : json) : list send_op :=
  map (fun to_addr => SendTo to_addr content) to_addrs.

(** The reply path as the specification words it, for a request that
    names [in_reply_to] while the store holds [store]: a reply to the
    original message when it is found and [to_addr] is its one sender,
    otherwise one send failed with the message of the source. *)
Inductive specified_reply (store : TxRedisManager) (in_reply_to : text)
    (to_addrs : list json) (content : json) : list send_op -> Prop :=
| reply_submitted original_message to_addr :
    store !! in_reply_to = Some original_message ->
    to_addrs = [to_addr] ->
    getitem (payload original_message) (u "from_addr") = Ok to_addr ->
    specified_reply store in_reply_to to_addrs content
      [ReplyTo original_message content]
| reply_refused :
    ~ (exists original_message to_addr,
         store !! in_reply_to = Some original_message /\
         to_addrs = [to_addr] /\
         getitem (payload original_message) (u "from_addr") = Ok to_addr) ->
    specified_reply store in_reply_to to_addrs content
      [Fail "Invalid to_addr for reply"].

Definition reply_contract (self : RapidSMSRelay) (request : Request) : Prop :=
  forall store data in_reply_to content to_addrs,
    allow_replies (static_config self) = true ->
    redis self = Some store ->
    Relay.content request = Some data ->
    getitem data (u "in_reply_to") = Ok (JString in_reply_to) ->
    getitem data (u "content") = Ok content ->
    getitem data (u "to_addr") = Ok (JArray to_addrs) ->
    exists dispatch,
      handle_raw_outbound_message self request = Ok dispatch /\
      specified_reply store in_reply_to to_addrs content (sends dispatch).

(** A request as the HTTP layer hands it over, with [data] as its decoded
    body. *)
Definition request_with (data : json) : Request :=
  {| content := Some data;
     responseHeaders := [];
     responseCode := None;
     written := [];
     finished := false |}.

Definition body (content : string) (to_addr : list string)
    (in_reply_to : option string) : json :=
  JObject ([(u "content", JString (u content));
            (u "to_addr", JArray (map (fun a => JString (u a)) to_addr))]
           ++ match in_reply_to with
              | Some id => [(u "in_reply_to", JString (u id))]
              | None => []
              end).

(** The message the backbone builds for a send to [to_addr]. *)
Definition sent (to_addr content : string) : Message :=
  {| payload := JObject [(u "to_addr", JString (u to_addr));
                         (u "content", JString (u content))] |}.

(** An inbound message from [from_addr], kept for replies. *)
Definition received (message_id from_addr content : string) : Message :=
  {| payload := JObject [(u "message_id", JString (u message_id));
                         (u "from_addr", JString (u from_addr));
                         (u "content", JString (u content))] |}.

(** A started worker with replies allowed, whose store holds message
    [m1], received from [+41791234567]. *)
Definition replying_worker : RapidSMSRelay :=
  setup_application
    (fun _ => {[ u "m1" := received "m1" "+41791234567" "ping" ]})
    (validate_config (new_worker defaults)).

(** *** Sample configurations and messages *)

(** A relay that requires the pair [user] / [secret] in every context. *)
Definition protected : option Message -> option ConfigContext -> RapidSMSRelayConfig :=
  fun _ _ =>
    {| web_path := web_path defaults;
       web_port := web_port defaults;
       redis_manager := redis_manager defaults;
       allow_replies := allow_replies defaults;
       vumi_username := Some (u "user");
       vumi_password := Some (u "secret");
       vumi_auth_method := vumi_auth_method defaults;
       vumi_reply_timeout := vumi_reply_timeout defaults;
       rapidsms_url := rapidsms_url defaults;
       rapidsms_username := rapidsms_username defaults;
       rapidsms_password := rapidsms_password defaults;
       rapidsms_auth_method := rapidsms_auth_method defaults;
       rapidsms_http_method := rapidsms_http_method defaults |}.

(** A relay configured with basic authentication towards RapidSMS. *)
Definition to_rapidsms : option Message -> option ConfigContext -> RapidSMSRelayConfig :=
  fun _ _ => rapidsms_auth (Some (u "basic")) (Some (u "u")) (Some (u "p")).

Definition hello : Message :=
  {| payload := JObject [(u "content", JString (u "hello"))] |}.

End Relay.

(** ** The rest of the worker: shutdown and the event callbacks *)

Module Worker.
Import Relay.

(** What [teardown_application] waits for. *)
Inductive action :=
| loseConnection                                (* self.web_resource.loseConnection() *)
| close_manager (manager : TxRedisManager).     (* self.redis.close_manager() *)

(** [teardown_application], as the calls it makes, in order. *)
Definition teardown_application (self : RapidSMSRelay) : list action :=
  loseConnection ::
  match redis self with
  | Some manager => [close_manager manager]
  | None => []
  end.

(** The lines [consume_ack] and [consume_delivery_report] log, with the
    values they format into them. *)
Inductive LogLine :=
| acknowledgement_received (user_message_id : json)
| delivery_report_received (user_message_id delivery_status : json).

(** [event[key]] reads the payload of the event. *)
Definition consume_ack (event : Message) : result (list LogLine) :=
  user_message_id <- getitem (payload event) (u "user_message_id") ;;
  Ok [acknowledgement_received user_message_id].

Definition consume_delivery_report (event : Message) : result (list LogLine) :=
  user_message_id <- getitem (payload event) (u "user_message_id") ;;
  delivery_status <- getitem (payload event) (u "delivery_status") ;;
  Ok [delivery_report_received user_message_id delivery_status].

(** *** Vocabulary of the further statements *)

(** The characters a base64 text is made of. *)
Definition base64_char (c : ascii) : Prop :=
  c ∈ Base64.alphabet \/ c = Base64.pad.

(** A decoded body without the member [key]. *)
Definition without (key : text) (data : json) : json :=
  match data with
  | JObject members => JObject (filter (fun kv => kv.1 <> key) members)
  | _ => data
  end.

(** The request [request] with another decoded body. *)
Definition with_content (data : option json) (request : Request) : Request :=
  {| content := data;
     responseHeaders := responseHeaders request;
     responseCode := responseCode request;
     written := written request;
     finished := finished request |}.

(** The colon, as a code point. *)
Definition colon : codepoint := 58%N.

(** A byte string of ASCII characters only. *)
Definition ascii_only (s : string) : Prop :=
  Forall (fun c => (N_of_ascii c < 128)%N) (list_ascii_of_string s).

(** A send that did not succeed. *)
Definition failed_send (o : outcome Message) : Prop :=
  match o with
  | Success _ => False
  | Errback _ => True
  end.

End Worker.

(** * Properties *)

(** ** UTF-8 *)

Module Utf8Facts.
Import Py Utf8.
Local Open Scope N_scope.

Ltac Zify.zify_post_hook ::= Z.to_euclidean_division_equations.

Lemma N_of_byte (n : N) : n < 256 -> N_of_ascii (byte n) = n.
Proof. apply N_ascii_embedding. Qed.

Lemma continuation_byte (x : N) :
  x < 0x40 -> continuation (byte (0x80 + x)) = Some x.
Proof.
  intros Hx. unfold continuation. rewrite N_of_byte by lia.
  destruct (N.leb_spec 0x80 (0x80 + x)); [|lia].
  destruct (N.ltb_spec (0x80 + x) 0xC0); [|lia].
  cbn [andb]. f_equal. lia.
Qed.

Ltac by_range :=
  repeat match goal with
         | |- context [?a <? ?b] => destruct (N.ltb_spec a b); try lia
         end.

Lemma decode_encode_codepoint (c : codepoint) (l : list ascii) :
  c < 0x110000 ->
  decode_list (encode_codepoint c ++ l)
    = opt_bind (decode_list l) (fun t => Some (c :: t)).
Proof.
  intros Hc. unfold encode_codepoint.
  destruct (N.ltb_spec c 0x80); [|destruct (N.ltb_spec c 0x800);
    [|destruct (N.ltb_spec c 0x10000)]];
    cbn [app decode_list]; rewrite N_of_byte by lia; by_range;
    rewrite ?continuation_byte by lia; cbn [opt_bind];
    destruct (decode_list l); cbn [opt_bind]; try reflexivity;
    do 2 f_equal; lia.
Qed.

Lemma decode_encode (t : text) : valid t -> decode (encode t) = Some t.
Proof.
  unfold decode, encode. rewrite list_ascii_of_string_of_list_ascii.
  induction 1 as [|c t Hc _ IH]; [reflexivity|].
  unfold encode_list in *. cbn [flat_map].
  now rewrite decode_encode_codepoint, IH.
Qed.

Example encode_e_acute : encode [0xE9] = String (byte 0xC3) (String (byte 0xA9) "").
Proof. reflexivity. Qed.

Example encode_euro : encode [0x20AC]
  = String (byte 0xE2) (String (byte 0x82) (String (byte 0xAC) "")).
Proof. reflexivity. Qed.

Example encode_emoji : encode [0x1F600]
  = String (byte 0xF0) (String (byte 0x9F) (String (byte 0x98) (String (byte 0x80) ""))).
Proof. reflexivity. Qed.

End Utf8Facts.

(** ** Base64 *)

Module Base64Facts.
Import Py Base64.

Lemma val_chr (s : sextet) : val (chr s) = Some s.
Proof. destruct s as [[] [] [] [] [] []]; reflexivity. Qed.

Lemma chr_not_pad (s : sextet) : Ascii.eqb (chr s) pad = false.
Proof. destruct s as [[] [] [] [] [] []]; reflexivity. Qed.

Lemma regroup (a b c : ascii) :
  byte1 (first a) (second a b) = a /\
  byte2 (second a b) (third b c) = b /\
  byte3 (third b c) (fourth c) = c.
Proof. destruct a, b, c; repeat split. Qed.

Lemma list_ind3 {A} (P : list A -> Prop) :
  P [] -> (forall a, P [a]) -> (forall a b, P [a; b]) ->
  (forall a b c l, P l -> P (a :: b :: c :: l)) ->
  forall l, P l.
Proof.
  intros H0 H1 H2 H3.
  assert (H : forall l, P l /\ (forall a, P (a :: l))
                        /\ (forall a b, P (a :: b :: l))).
  { induction l as [|x l (IH0 & IH1 & IH2)]; [now auto|].
    split; [apply IH1|]. split; [intros; apply IH2|].
    intros a b. now apply H3. }
  intros l. apply H.
Qed.

Ltac step_decode :=
  cbn [encode_bytes decode_chars opt_bind];
  repeat (rewrite ?val_chr, ?chr_not_pad, ?Ascii.eqb_refl; cbn [opt_bind]).

Lemma decode_encode_bytes (l : list ascii) :
  decode_chars (encode_bytes l) = Some l.
Proof.
  induction l as [|a|a b|a b c l IH] using list_ind3.
  - reflexivity.
  - step_decode. now destruct (regroup a zero zero) as (-> & _).
  - step_decode. now destruct (regroup a b zero) as (-> & -> & _).
  - step_decode. rewrite IH. cbn [opt_bind].
    now destruct (regroup a b c) as (-> & -> & ->).
Qed.

Lemma b64decode_b64encode (s : string) : b64decode (b64encode s) = Some s.
Proof.
  unfold b64decode, b64encode.
  rewrite list_ascii_of_string_of_list_ascii, decode_encode_bytes.
  now rewrite string_of_list_ascii_of_string.
Qed.

Example b64encode_u_p : b64encode "u:p" = "dTpw".
Proof. reflexivity. Qed.

Example b64encode_pad1 : b64encode "user:pw" = "dXNlcjpwdw==".
Proof. reflexivity. Qed.

Example b64encode_pad2 : b64encode "username:password" = "dXNlcm5hbWU6cGFzc3dvcmQ=".
Proof. reflexivity. Qed.

End Base64Facts.

(** ** DeferredList *)

Module TwistedFacts.
Import Py Twisted.

Section DeferredListFacts.
Context {A : Type}.
Implicit Types (dl : DeferredList A) (events : list (nat * outcome A)).

Lemma fire_resultList dl ev :
  resultList (fire dl ev) = store (resultList dl) ev.
Proof. destruct ev as [i [a|f]]; reflexivity. Qed.

Lemma fire_finishedCount dl ev :
  finishedCount (fire dl ev) = S (finishedCount dl).
Proof. destruct ev as [i [a|f]]; reflexivity. Qed.

Lemma fire_called dl ev :
  called (fire dl ev) =
    match called dl with
    | Some fired => Some fired
    | None =>
        if decide (S (finishedCount dl) = length (resultList dl))
        then Some (store (resultList dl) ev) else None
    end.
Proof.
  destruct ev as [i [a|f]]; cbn; destruct (called dl); try reflexivity;
    rewrite length_insert; reflexivity.
Qed.

Lemma run_snoc dl events ev : run dl (events ++ [ev]) = fire (run dl events) ev.
Proof. unfold run. now rewrite foldl_snoc. Qed.

Lemma run_resultList dl events :
  resultList (run dl events) = foldl store (resultList dl) events.
Proof.
  induction events as [|ev events IH] using rev_ind; [reflexivity|].
  now rewrite run_snoc, fire_resultList, IH, foldl_snoc.
Qed.

Lemma length_foldl_store l events : length (foldl store l events) = length l.
Proof.
  revert l. induction events as [|ev events IH]; intros l; [reflexivity|].
  cbn. rewrite IH. apply length_insert.
Qed.

Lemma run_finishedCount dl events :
  finishedCount (run dl events) = finishedCount dl + length events.
Proof.
  induction events as [|ev events IH] using rev_ind; [cbn; lia|].
  rewrite run_snoc, fire_finishedCount, IH, length_app. cbn. lia.
Qed.

(** Before the last member has fired, the DeferredList has not. *)
Lemma run_not_called dl events :
  called dl = None ->
  finishedCount dl + length events < length (resultList dl) ->
  called (run dl events) = None.
Proof.
  intros Hc. induction events as [|ev events IH] using rev_ind; [easy|].
  rewrite length_app. cbn. intros Hlt.
  rewrite run_snoc, fire_called, IH by lia.
  rewrite run_finishedCount, run_resultList, length_foldl_store.
  now rewrite decide_False by lia.
Qed.

(** When the last member fires, the DeferredList fires with the
    [resultList] of that moment. *)
Lemma run_called dl events :
  called dl = None ->
  events <> [] ->
  finishedCount dl + length events = length (resultList dl) ->
  called (run dl events) = Some (resultList (run dl events)).
Proof.
  intros Hc Hne. destruct events as [|ev events _] using rev_ind; [easy|].
  rewrite length_app. cbn. intros Hlen.
  rewrite run_snoc, fire_called, fire_resultList.
  rewrite run_not_called by (trivial || lia).
  rewrite run_finishedCount, run_resultList, length_foldl_store.
  now rewrite decide_True by lia.
Qed.

Lemma foldl_store_other l events i :
  i ∉ events.*1 -> foldl store l events !! i = l !! i.
Proof.
  revert l. induction events as [|ev events IH]; intros l Hi; [reflexivity|].
  cbn in *. apply not_elem_of_cons in Hi as [Hne Hi].
  rewrite IH by assumption. unfold store.
  now rewrite list_lookup_insert_ne by congruence.
Qed.

Lemma foldl_store_lookup l events i o :
  NoDup events.*1 -> (i, o) ∈ events -> i < length l ->
  foldl store l events !! i = Some (Some (entry o)).
Proof.
  revert l. induction events as [|ev events IH]; intros l Hnd Hin Hi.
  - now apply elem_of_nil in Hin.
  - cbn in Hnd. apply NoDup_cons in Hnd as [Hfresh Hnd].
    apply elem_of_cons in Hin as [<-|Hin]; cbn.
    + rewrite foldl_store_other by assumption.
      unfold store. cbn. now apply list_lookup_insert_eq.
    + apply IH; try assumption. unfold store. now rewrite length_insert.
Qed.

(** Whatever the order in which the members fire, slot [i] holds the
    way member [i] fired. *)
Lemma fst_imap_pair (outs : list (outcome A)) :
  (imap pair outs).*1 = seq 0 (length outs).
Proof.
  rewrite fmap_imap, <- (list_fmap_id (seq 0 (length outs))).
  rewrite <- (imap_seq_0 outs id). now apply imap_ext.
Qed.

(** Whatever the order in which the members fire, slot [i] holds the
    way member [i] fired. *)
Lemma foldl_store_permutation (outs : list (outcome A)) events :
  events ≡ₚ imap pair outs ->
  foldl store (replicate (length outs) None) events
    = (fun o => Some (entry o)) <$> outs.
Proof.
  intros Hp.
  assert (Hnd : NoDup events.*1).
  { rewrite Hp, fst_imap_pair. apply NoDup_seq. }
  apply list_eq. intros i. rewrite list_lookup_fmap.
  destruct (outs !! i) as [o|] eqn:Ho; cbn.
  - apply foldl_store_lookup; [assumption| |].
    + rewrite Hp. now apply (elem_of_lookup_imap_2 pair).
    + rewrite length_replicate. now apply lookup_lt_Some in Ho.
  - apply lookup_ge_None. rewrite length_foldl_store, length_replicate.
    now apply lookup_ge_None in Ho.
Qed.

(** The DeferredList over [length outs] members, once each member has
    fired (in the order of [events]), has fired exactly with the
    outcomes in member order. *)
Lemma run_init_called (outs : list (outcome A)) events :
  events ≡ₚ imap pair outs ->
  called (run (init (length outs)) events)
    = Some ((fun o => Some (entry o)) <$> outs).
Proof.
  intros Hp.
  assert (Hlen : length events = length outs).
  { now rewrite Hp, length_imap. }
  destruct outs as [|o outs].
  - apply Permutation_nil_r in Hp. now subst events.
  - rewrite run_called.
    + rewrite run_resultList. f_equal.
      now apply (foldl_store_permutation (o :: outs)).
    + reflexivity.
    + intros ->. discriminate Hlen.
    + cbn [init resultList finishedCount]. now rewrite length_replicate.
Qed.

End DeferredListFacts.

End TwistedFacts.

(** ** Outbound authentication: [get_auth_headers] *)

Module AuthHeaders.
Import Relay.

Lemma registry_basic self :
  supported_auth_methods (validate_config self) !! u "basic"
    = Some generate_basic_auth_headers.
Proof. apply lookup_singleton_eq. Qed.

Lemma registry_other self (name : text) :
  name <> u "basic" -> supported_auth_methods (validate_config self) !! name = None.
Proof. intros Hne. apply lookup_singleton_None. congruence. Qed.

(** C5, as the code has it: when the auth method is a registered one and
    the username is unset, [get_auth_headers] returns the empty header set,
    whatever the password. *)
Theorem no_username_no_headers self config :
  is_Some (get_method (supported_auth_methods self) (rapidsms_auth_method config)) ->
  rapidsms_username config = None ->
  get_auth_headers self config = Ok ∅.
Proof.
  intros Hm Hu. unfold get_auth_headers.
  rewrite bool_decide_eq_true_2 by assumption. cbn. now rewrite Hu.
Qed.

Lemma no_username_no_headers_witness :
  get_auth_headers (validate_config (new_worker defaults))
    (rapidsms_auth (Some (u "basic")) None (Some (u "secret"))) = Ok ∅.
Proof. apply no_username_no_headers; [now eexists | reflexivity]. Defined.

(** C5 as stated fails: with a method that is not registered the call
    raises [ConfigError] although the username is unset. *)
Lemma no_username_unknown_method_raises :
  let config := rapidsms_auth (Some (u "digest")) None None in
  rapidsms_username config = None /\
  get_auth_headers (validate_config (new_worker defaults)) config
    = Raise (ConfigError (Some (u "digest"))) /\
  get_auth_headers (validate_config (new_worker defaults)) config <> Ok ∅.
Proof. repeat split. discriminate. Qed.

(** C6: an auth method that is not in [supported_auth_methods] makes
    [get_auth_headers] raise [ConfigError] when it is called, whatever the
    username and password; it never returns headers. *)
Theorem unsupported_method_raises self config :
  get_method (supported_auth_methods self) (rapidsms_auth_method config) = None ->
  get_auth_headers self config = Raise (ConfigError (rapidsms_auth_method config)).
Proof.
  intros Hm. unfold get_auth_headers. rewrite Hm.
  rewrite bool_decide_eq_false_2; [reflexivity|]. now intros [? ?].
Qed.

Lemma unsupported_method_raises_witness :
  get_auth_headers (validate_config (new_worker defaults))
    (rapidsms_auth (Some (u "unknown-method")) (Some (u "u")) (Some (u "p")))
  = Raise (ConfigError (Some (u "unknown-method"))).
Proof.
  apply (unsupported_method_raises (validate_config (new_worker defaults))
           (rapidsms_auth (Some (u "unknown-method")) (Some (u "u")) (Some (u "p")))).
  reflexivity.
Defined.

Lemma get_auth_headers_basic self config username :
  rapidsms_auth_method config = Some (u "basic") ->
  rapidsms_username config = Some username ->
  get_auth_headers (validate_config self) config
    = generate_basic_auth_headers (Some username) (rapidsms_password config).
Proof.
  intros Hm Hu. unfold get_auth_headers. rewrite Hm, Hu. cbn [get_method].
  rewrite registry_basic. rewrite bool_decide_eq_true_2 by now eexists.
  reflexivity.
Qed.

Lemma encode_app (s t : text) :
  Utf8.encode (s ++ t) = Utf8.encode s +:+ Utf8.encode t.
Proof.
  unfold Utf8.encode, Utf8.encode_list. rewrite flat_map_app.
  generalize (flat_map Utf8.encode_codepoint s) as l.
  induction l as [|c l IH]; cbn; [reflexivity | now rewrite IH].
Qed.

Lemma encode_colon : Utf8.encode (u ":") = ":".
Proof. reflexivity. Qed.

(** C7: with the "basic" method, a username [username] and a password
    [password], the header set is exactly
    [Authorization: Basic <base64 of the UTF-8 bytes of username:password>],
    and decoding that base64 text gives those bytes back. *)
Theorem basic_auth_header self config (username password : text) :
  rapidsms_auth_method config = Some (u "basic") ->
  rapidsms_username config = Some username ->
  rapidsms_password config = Some password ->
  let credentials := Utf8.encode username +:+ ":" +:+ Utf8.encode password in
  let headers : Headers :=
    {[ "Authorization" := ["Basic " +:+ Base64.b64encode credentials] ]} in
  get_auth_headers (validate_config self) config = Ok headers /\
  generate_basic_auth_headers (Some username) (Some password) = Ok headers /\
  map_to_list headers = [("Authorization", ["Basic " +:+ Base64.b64encode credentials])] /\
  credentials = Utf8.encode (username ++ u ":" ++ password) /\
  Base64.b64decode (Base64.b64encode credentials) = Some credentials /\
  (Utf8.valid username -> Utf8.valid password ->
   Utf8.decode credentials = Some (username ++ u ":" ++ password)).
Proof.
  intros Hm Hu Hp credentials headers.
  assert (Hc : credentials = Utf8.encode (username ++ u ":" ++ password)).
  { subst credentials. now rewrite !encode_app, encode_colon. }
  assert (Hg : generate_basic_auth_headers (Some username) (Some password) = Ok headers).
  { unfold generate_basic_auth_headers. cbn [join bind]. now rewrite <- Hc. }
  split; [|split; [|split; [|split; [|split]]]].
  - now rewrite (get_auth_headers_basic _ _ username), Hp.
  - exact Hg.
  - apply map_to_list_singleton.
  - exact Hc.
  - apply Base64Facts.b64decode_b64encode.
  - intros Vu Vp. rewrite Hc. apply Utf8Facts.decode_encode.
    apply Forall_app. split; [exact Vu|]. apply Forall_cons.
    split; [reflexivity | exact Vp].
Qed.

Lemma basic_auth_header_witness :
  get_auth_headers (validate_config (new_worker defaults))
    (rapidsms_auth (Some (u "basic")) (Some (u "u")) (Some (u "p")))
  = Ok {[ "Authorization" := ["Basic dTpw"] ]}.
Proof.
  apply (basic_auth_header (new_worker defaults)
           (rapidsms_auth (Some (u "basic")) (Some (u "u")) (Some (u "p")))
           (u "u") (u "p")); reflexivity.
Defined.

(** C10: with the "basic" method, a username and no password,
    [get_auth_headers] raises [TypeError] (from joining the username with
    [None]); it returns no headers and raises no [ConfigError]. *)
Theorem basic_auth_without_password self config (username : text) :
  rapidsms_auth_method config = Some (u "basic") ->
  rapidsms_username config = Some username ->
  rapidsms_password config = None ->
  get_auth_headers (validate_config self) config = Raise TypeError /\
  generate_basic_auth_headers (Some username) None = Raise TypeError.
Proof.
  intros Hm Hu Hp.
  rewrite (get_auth_headers_basic _ _ username), Hp by assumption.
  split; reflexivity.
Qed.

Lemma basic_auth_without_password_witness :
  get_auth_headers (validate_config (new_worker defaults))
    (rapidsms_auth (Some (u "basic")) (Some (u "rapidsms")) None)
  = Raise TypeError.
Proof.
  apply (basic_auth_without_password (new_worker defaults)
           (rapidsms_auth (Some (u "basic")) (Some (u "rapidsms")) None)
           (u "rapidsms")); reflexivity.
Defined.

End AuthHeaders.

(** ** Inbound authentication: [get_avatar_id] *)

Module AccessChecker.
Import Relay.

Section Checker.
Variable get_config :
  option Message -> option ConfigContext -> RapidSMSRelayConfig.

(** C4: [get_avatar_id] succeeds exactly for anonymous credentials when
    [vumi_username] is unset (the avatar id is then [None]) and for a
    username and password that both equal the configured ones; in every
    other case, whatever the credentials are, it raises
    [UnauthorizedLogin]. *)
Theorem get_avatar_id_decision (creds : Credentials) :
  ((exists avatar_id, get_avatar_id get_config creds = Ok avatar_id)
     <-> anonymous_allowed get_config creds \/ password_matches get_config creds) /\
  (anonymous_allowed get_config creds -> get_avatar_id get_config creds = Ok None) /\
  (forall name password, creds = UsernamePassword name password ->
     password_matches get_config creds -> get_avatar_id get_config creds = Ok (Some name)) /\
  (~ (anonymous_allowed get_config creds \/ password_matches get_config creds) ->
     get_avatar_id get_config creds = Raise UnauthorizedLogin).
Proof.
  unfold anonymous_allowed, password_matches, config_for.
  destruct creds as [|name password|]; cbn.
  - destruct (vumi_username _) eqn:Hu.
    + split; [split|split; [|split]].
      * intros [? [=]].
      * intros [[_ [=]]|(? & ? & [=] & _)].
      * intros [_ [=]].
      * intros ? ? [=].
      * reflexivity.
    + split; [split|split; [|split]]; eauto.
      * intros ? ? [=].
      * intros []. now left.
  - destruct (bool_decide (Some name = vumi_username _)) eqn:Hu;
      [apply bool_decide_eq_true_1 in Hu | apply bool_decide_eq_false_1 in Hu];
      (destruct (bool_decide (Some password = vumi_password _)) eqn:Hp;
       [apply bool_decide_eq_true_1 in Hp | apply bool_decide_eq_false_1 in Hp]);
      cbn; (split; [split|split; [|split]]);
      solve
        [ intros [? [=]] | intros [[=] _] | intros ? ? [= <- <-]; reflexivity
        | reflexivity
        | intros [[[=] _]|(? & ? & [= <- <-] & ? & ?)]; congruence
        | intros ? ? [= <- <-] (? & ? & [= <- <-] & ? & ?); congruence
        | intros _; right; eauto
        | eauto
        | intros []; right; eauto ].
  - split; [split|split; [|split]].
    + intros [? [=]].
    + intros [[[=] _]|(? & ? & [=] & _)].
    + intros [[=] _].
    + intros ? ? [=].
    + reflexivity.
Qed.

End Checker.

Example anonymous_without_username :
  get_avatar_id (fun _ _ => defaults) Anonymous = Ok None.
Proof. reflexivity. Qed.

Example anonymous_with_username :
  get_avatar_id protected Anonymous = Raise UnauthorizedLogin.
Proof. reflexivity. Qed.

Example right_password :
  get_avatar_id protected (UsernamePassword (u "user") (u "secret"))
    = Ok (Some (u "user")).
Proof. reflexivity. Qed.

Example wrong_password :
  get_avatar_id protected (UsernamePassword (u "user") (u "guess"))
    = Raise UnauthorizedLogin.
Proof. reflexivity. Qed.

Lemma get_avatar_id_decision_witness :
  get_avatar_id (fun _ _ => defaults) Anonymous = Ok None.
Proof.
  apply (get_avatar_id_decision (fun _ _ => defaults) Anonymous).
  split; reflexivity.
Defined.

End AccessChecker.

(** ** Forwarding to RapidSMS: [_call_rapidsms] *)

Module Forwarder.
Import Relay.

Section Forward.
Variable message_to_json : Message -> string.
Variable get_config :
  option Message -> option ConfigContext -> RapidSMSRelayConfig.
Variable http_request_full :
  string -> string -> Headers -> option text -> outcome Response.

(** C8: once the HTTP request to RapidSMS has been issued, whether it ends
    with a response (of any status code) or with a failure,
    [_call_rapidsms] logs that outcome and completes without an error; so
    do [consume_user_message] and [close_session]. *)
Theorem call_rapidsms_logs_outcome self message headers url :
  let config := get_config (Some message) None in
  get_auth_headers self config = Ok headers ->
  rapidsms_url config = Some url ->
  let response :=
    http_request_full url (message_to_json message) headers
      (rapidsms_http_method config) in
  _call_rapidsms message_to_json get_config http_request_full self message
    = (Ok tt, [logged response]) /\
  consume_user_message message_to_json get_config http_request_full self message
    = (Ok tt, [logged response]) /\
  close_session message_to_json get_config http_request_full self message
    = (Ok tt, [logged response]).
Proof.
  intros config Hh Hu response.
  assert (H : _call_rapidsms message_to_json get_config http_request_full
                self message = (Ok tt, [logged response])).
  { unfold _call_rapidsms. fold config. rewrite Hh, Hu. cbn [bind geturl].
    fold response. now destruct response as [[c]|[reason]]. }
  now repeat split.
Qed.

(** An error raised while the headers are built is not covered by the
    callbacks: it is the result of [_call_rapidsms], and nothing is sent. *)
Lemma call_rapidsms_signing_error self message e :
  get_auth_headers self (get_config (Some message) None) = Raise e ->
  _call_rapidsms message_to_json get_config http_request_full self message
    = (Raise e, []).
Proof. intros H. unfold _call_rapidsms. now rewrite H. Qed.

End Forward.

Lemma call_rapidsms_logs_outcome_witness :
  _call_rapidsms (fun _ => "{}") to_rapidsms
      (fun _ _ _ _ => Success {| code := 503 |})
      (validate_config (new_worker defaults)) hello
    = (Ok tt, [info 503]) /\
  _call_rapidsms (fun _ => "{}") to_rapidsms
      (fun _ _ _ _ => Errback (failure "connection refused"))
      (validate_config (new_worker defaults)) hello
    = (Ok tt, [err (failure "connection refused")]).
Proof.
  split.
  - apply (call_rapidsms_logs_outcome (fun _ => "{}") to_rapidsms
             (fun _ _ _ _ => Success {| code := 503 |})
             (validate_config (new_worker defaults)) hello
             {[ "Authorization" := ["Basic dTpw"] ]}
             "http://example.com/rapidsms"); reflexivity.
  - apply (call_rapidsms_logs_outcome (fun _ => "{}") to_rapidsms
             (fun _ _ _ _ => Errback (failure "connection refused"))
             (validate_config (new_worker defaults)) hello
             {[ "Authorization" := ["Basic dTpw"] ]}
             "http://example.com/rapidsms"); reflexivity.
Defined.

End Forwarder.

(** ** Dispatch of outbound requests: [handle_raw_outbound_message] *)

Module Dispatcher.
Import Relay.

Lemma handle_raw_outbound_message_sends self request data content to_addrs addrs :
  Relay.content request = Some data ->
  getitem data (u "content") = Ok content ->
  getitem data (u "to_addr") = Ok to_addrs ->
  iter to_addrs = Ok addrs ->
  handle_raw_outbound_message self request
    = Ok {| sends := fresh_sends addrs content;
            d := init (length (fresh_sends addrs content)) |}.
Proof.
  intros Hd Hc Ht Hi. unfold handle_raw_outbound_message.
  rewrite Hd, Hc. cbn [bind]. rewrite Ht. cbn [bind].
  rewrite andb_false_r, Hi. reflexivity.
Qed.

Example body_not_json :
  handle_raw_outbound_message (new_worker defaults)
    {| content := None; responseHeaders := []; responseCode := None;
       written := []; finished := false |}
  = Raise ValueError.
Proof. reflexivity. Qed.

Example body_without_to_addr :
  handle_raw_outbound_message (new_worker defaults)
    (request_with (JObject [(u "content", JString (u "hi"))]))
  = Raise (KeyError (u "to_addr")).
Proof. reflexivity. Qed.

Example to_addr_a_string :
  handle_raw_outbound_message (new_worker defaults)
    (request_with (JObject [(u "content", JString (u "hi"));
                            (u "to_addr", JString (u "AB"))]))
  = Ok {| sends := [SendTo (JString (u "A")) (JString (u "hi"));
                    SendTo (JString (u "B")) (JString (u "hi"))];
          d := init 2 |}.
Proof. reflexivity. Qed.

Example to_addr_a_number :
  handle_raw_outbound_message (new_worker defaults)
    (request_with (JObject [(u "content", JString (u "hi"));
                            (u "to_addr", JNumber "41791234567")]))
  = Raise TypeError.
Proof. reflexivity. Qed.

Lemma succeeded_results_entries (outs : list (outcome Message)) :
  succeeded_results ((fun o => Some (entry o)) <$> outs)
    = Ok (Result <$> dispatched outs).
Proof.
  induction outs as [|[msg|reason] outs IH]; [reflexivity| |];
    rewrite fmap_cons; cbn [succeeded_results]; rewrite IH; reflexivity.
Qed.

Lemma payloads_results (msgs : list Message) :
  payloads (Result <$> msgs) = Ok (payload <$> msgs).
Proof.
  induction msgs as [|msg msgs IH]; [reflexivity|].
  rewrite !fmap_cons. cbn [payloads]. now rewrite IH.
Qed.

(** Once every send has fired, in whatever order, the Deferred returned by
    [handle_raw_outbound_message] has fired with the messages of the
    successful sends in the order of [sends]. *)
Lemma result_after_settled dispatch (outs : list (outcome Message)) events :
  d dispatch = init (length (sends dispatch)) ->
  length outs = length (sends dispatch) ->
  events ≡ₚ imap pair outs ->
  result_after dispatch events = Some (Ok (Result <$> dispatched outs)).
Proof.
  intros Hd Hlen Hp. unfold result_after.
  rewrite Hd, <- Hlen, (TwistedFacts.run_init_called outs events Hp).
  cbn. now rewrite succeeded_results_entries.
Qed.

(** C1 as stated fails: a request that replies to the stored message
    [m1], addressed to its sender, is not turned into a reply (nor into a
    failed send): it is sent afresh. *)
Lemma reply_request_not_correlated :
  let request := request_with (body "pong" ["+41791234567"] (Some "m1")) in
  handle_raw_outbound_message replying_worker request
    = Ok {| sends := [SendTo (JString (u "+41791234567")) (JString (u "pong"))];
            d := init 1 |} /\
  ~ reply_contract replying_worker request.
Proof.
  split; [reflexivity|]. intros H.
  destruct (H {[ u "m1" := received "m1" "+41791234567" "ping" ]}
              (body "pong" ["+41791234567"] (Some "m1")) (u "m1")
              (JString (u "pong")) [JString (u "+41791234567")])
    as (dispatch & Hd & Hs); try reflexivity.
  injection Hd as <-. inversion Hs.
Qed.

(** C1, as the code has it: the reply branch is switched off.  A request
    that names [in_reply_to], with replies allowed and whatever the store
    holds, is dispatched as a fresh send: one [send_to] per address and
    nothing else; the sends settle independently, and one that fails is
    left out of the result without touching the others. *)
Theorem reply_request_sent_afresh self request store data in_reply_to
    content to_addrs :
  allow_replies (static_config self) = true ->
  redis self = Some store ->
  Relay.content request = Some data ->
  getitem data (u "in_reply_to") = Ok in_reply_to ->
  getitem data (u "content") = Ok content ->
  getitem data (u "to_addr") = Ok (JArray to_addrs) ->
  exists dispatch,
    handle_raw_outbound_message self request = Ok dispatch /\
    sends dispatch = fresh_sends to_addrs content /\
    forall outs events,
      length outs = length to_addrs ->
      events ≡ₚ imap pair outs ->
      result_after dispatch events = Some (Ok (Result <$> dispatched outs)).
Proof.
  intros _ _ Hd _ Hc Ht. eexists. split; [|split].
  - now apply (handle_raw_outbound_message_sends self request data content
                 (JArray to_addrs) to_addrs).
  - reflexivity.
  - intros outs events Hlen Hp. apply result_after_settled; [reflexivity| |exact Hp].
    cbn [sends]. unfold fresh_sends. now rewrite length_map.
Qed.

Lemma reply_request_sent_afresh_witness :
  exists dispatch,
    handle_raw_outbound_message replying_worker
      (request_with (body "pong" ["+41791234567"] (Some "m1"))) = Ok dispatch /\
    sends dispatch
      = fresh_sends [JString (u "+41791234567")] (JString (u "pong")) /\
    forall outs events,
      length outs = 1 ->
      events ≡ₚ imap pair outs ->
      result_after dispatch events = Some (Ok (Result <$> dispatched outs)).
Proof.
  apply (reply_request_sent_afresh replying_worker
           (request_with (body "pong" ["+41791234567"] (Some "m1")))
           {[ u "m1" := received "m1" "+41791234567" "ping" ]}
           (body "pong" ["+41791234567"] (Some "m1"))
           (JString (u "m1")) (JString (u "pong"))
           [JString (u "+41791234567")]); reflexivity.
Defined.

(** C2 as stated fails: with two recipients whose sends both succeed, the
    second completing first, the result lists the messages in the order of
    [to_addr], not in the order of completion. *)
Lemma result_not_in_completion_order :
  let request := request_with (body "hi" ["A"; "B"] None) in
  let events := [(1, Success (sent "B" "hi")); (0, Success (sent "A" "hi"))] in
  exists dispatch,
    handle_raw_outbound_message (new_worker defaults) request = Ok dispatch /\
    completed events = [sent "B" "hi"; sent "A" "hi"] /\
    result_after dispatch events
      = Some (Ok [Result (sent "A" "hi"); Result (sent "B" "hi")]) /\
    result_after dispatch events <> Some (Ok (Result <$> completed events)).
Proof. eexists. repeat split. discriminate. Qed.

(** C2, as the code has it: for a well-formed fresh-send request whose
    sends all complete, in any order, the result holds exactly the
    messages of the successful sends, in the order of the addresses in
    [to_addr], whatever the order of completion. *)
Theorem result_in_submission_order self request data content to_addrs
    (outs : list (outcome Message)) events :
  Relay.content request = Some data ->
  getitem data (u "content") = Ok content ->
  getitem data (u "to_addr") = Ok (JArray to_addrs) ->
  length outs = length to_addrs ->
  events ≡ₚ imap pair outs ->
  exists dispatch,
    handle_raw_outbound_message self request = Ok dispatch /\
    sends dispatch = fresh_sends to_addrs content /\
    result_after dispatch events = Some (Ok (Result <$> dispatched outs)).
Proof.
  intros Hd Hc Ht Hlen Hp. eexists. split; [|split].
  - now apply (handle_raw_outbound_message_sends self request data content
                 (JArray to_addrs) to_addrs).
  - reflexivity.
  - apply result_after_settled; [reflexivity| |exact Hp].
    cbn [sends]. unfold fresh_sends. now rewrite length_map.
Qed.

Lemma result_in_submission_order_witness :
  exists dispatch,
    handle_raw_outbound_message (new_worker defaults)
      (request_with (body "hi" ["A"; "B"] None)) = Ok dispatch /\
    sends dispatch
      = fresh_sends [JString (u "A"); JString (u "B")] (JString (u "hi")) /\
    result_after dispatch
      [(1, Success (sent "B" "hi")); (0, Success (sent "A" "hi"))]
      = Some (Ok [Result (sent "A" "hi"); Result (sent "B" "hi")]).
Proof.
  apply (result_in_submission_order (new_worker defaults)
           (request_with (body "hi" ["A"; "B"] None))
           (body "hi" ["A"; "B"] None) (JString (u "hi"))
           [JString (u "A"); JString (u "B")]
           [Success (sent "A" "hi"); Success (sent "B" "hi")]);
    try reflexivity.
  apply perm_swap.
Defined.

Section Rendering.
Variable to_json : json -> string.

Lemma render_settled self request data content to_addrs
    (outs : list (outcome Message)) events :
  Relay.content request = Some data ->
  getitem data (u "content") = Ok content ->
  getitem data (u "to_addr") = Ok (JArray to_addrs) ->
  length outs = length to_addrs ->
  events ≡ₚ imap pair outs ->
  render_ to_json self request events
    = Ok (Finished (answered to_json request (dispatched outs))).
Proof.
  intros Hd Hc Ht Hlen Hp. unfold render_.
  rewrite (handle_raw_outbound_message_sends self _ data content
             (JArray to_addrs) to_addrs) by easy.
  cbn [bind d]. unfold fresh_sends. rewrite length_map, <- Hlen.
  rewrite (TwistedFacts.run_init_called outs events Hp).
  rewrite succeeded_results_entries. cbn [bind]. unfold finish_request.
  now rewrite payloads_results.
Qed.

(** While some send has not completed, no response is written. *)
Lemma render_pending self request data content to_addrs
    (events : list (nat * outcome Message)) :
  Relay.content request = Some data ->
  getitem data (u "content") = Ok content ->
  getitem data (u "to_addr") = Ok (JArray to_addrs) ->
  length events < length to_addrs ->
  render_ to_json self request events
    = Ok (NotDoneYet (setHeader "content-type" "application/json" request)).
Proof.
  intros Hd Hc Ht Hlen. unfold render_.
  rewrite (handle_raw_outbound_message_sends self _ data content
             (JArray to_addrs) to_addrs) by easy.
  cbn [bind d]. unfold fresh_sends. rewrite length_map.
  rewrite TwistedFacts.run_not_called; [reflexivity| |].
  - cbn. destruct to_addrs; [cbn in Hlen; lia | reflexivity].
  - cbn [init resultList finishedCount]. rewrite length_replicate. lia.
Qed.

(** C3: for a well-formed request, one [send_to] is submitted per
    recipient; once every one of these sends has completed, with success
    or with failure, the response has code 200 and its body is the JSON
    array of the payloads of exactly the messages whose sends succeeded; a
    failed send does not fail the call. *)
Theorem partial_failure_answers_200 self request data content to_addrs
    (outs : list (outcome Message)) events :
  Relay.content request = Some data ->
  getitem data (u "content") = Ok content ->
  getitem data (u "to_addr") = Ok (JArray to_addrs) ->
  length outs = length to_addrs ->
  events ≡ₚ imap pair outs ->
  exists dispatch response,
    handle_raw_outbound_message self request = Ok dispatch /\
    sends dispatch = fresh_sends to_addrs content /\
    result_after dispatch events = Some (Ok (Result <$> dispatched outs)) /\
    render_ to_json self request events = Ok (Finished response) /\
    responseCode response = Some 200%N /\
    responseHeaders response
      = ("content-type", "application/json") :: responseHeaders request /\
    written response
      = written request ++ [to_json (JArray (payload <$> dispatched outs))] /\
    finished response = true.
Proof.
  intros Hd Hc Ht Hlen Hp.
  eexists _, (answered to_json request (dispatched outs)).
  split; [|split; [|split; [|split]]].
  - now apply (handle_raw_outbound_message_sends self request data content
                 (JArray to_addrs) to_addrs).
  - reflexivity.
  - apply result_after_settled; [reflexivity| |exact Hp].
    cbn [sends]. unfold fresh_sends. now rewrite length_map.
  - now apply (render_settled self request data content to_addrs outs events).
  - now repeat split.
Qed.

(** C9: a request whose body has [content], an empty [to_addr] list and no
    [in_reply_to] is accepted: no send is made, the result is the empty
    list at once, and the response is 200 with the empty JSON array. *)
Theorem empty_to_addr_accepted self request data content :
  Relay.content request = Some data ->
  getitem data (u "content") = Ok content ->
  getitem data (u "to_addr") = Ok (JArray []) ->
  contains (u "in_reply_to") data = false ->
  handle_raw_outbound_message self request = Ok {| sends := []; d := init 0 |} /\
  result_after {| sends := []; d := init 0 |} [] = Some (Ok []) /\
  render_ to_json self request [] = Ok (Finished (answered to_json request [])) /\
  responseCode (answered to_json request []) = Some 200%N /\
  written (answered to_json request []) = written request ++ [to_json (JArray [])].
Proof.
  intros Hd Hc Ht _. split; [|split; [|split; [|split]]]; try reflexivity.
  - now apply (handle_raw_outbound_message_sends self request data content
                 (JArray []) []).
  - now apply (render_settled self request data content [] [] []).
Qed.

End Rendering.

Lemma partial_failure_answers_200_witness :
  exists dispatch response,
    handle_raw_outbound_message (new_worker defaults)
      (request_with (body "hi" ["A"; "B"] None)) = Ok dispatch /\
    sends dispatch
      = [SendTo (JString (u "A")) (JString (u "hi"));
         SendTo (JString (u "B")) (JString (u "hi"))] /\
    result_after dispatch
      [(1, Errback (failure "no route")); (0, Success (sent "A" "hi"))]
      = Some (Ok [Result (sent "A" "hi")]) /\
    render_ (fun _ => "[...]") (new_worker defaults)
      (request_with (body "hi" ["A"; "B"] None))
      [(1, Errback (failure "no route")); (0, Success (sent "A" "hi"))]
      = Ok (Finished response) /\
    responseCode response = Some 200%N /\
    responseHeaders response = [("content-type", "application/json")] /\
    written response
      = [] ++ [(fun _ => "[...]") (JArray [payload (sent "A" "hi")])] /\
    finished response = true.
Proof.
  apply (partial_failure_answers_200 (fun _ => "[...]") (new_worker defaults)
           (request_with (body "hi" ["A"; "B"] None))
           (body "hi" ["A"; "B"] None) (JString (u "hi"))
           [JString (u "A"); JString (u "B")]
           [Success (sent "A" "hi"); Errback (failure "no route")]);
    try reflexivity.
  apply perm_swap.
Defined.

Lemma empty_to_addr_accepted_witness :
  handle_raw_outbound_message (new_worker defaults)
    (request_with (body "hi" [] None))
    = Ok {| sends := []; d := init 0 |} /\
  result_after {| sends := []; d := init 0 |} [] = Some (Ok []).
Proof.
  destruct (empty_to_addr_accepted (fun _ => "[]") (new_worker defaults)
              (request_with (body "hi" [] None)) (body "hi" [] None)
              (JString (u "hi"))) as (H1 & H2 & _); try reflexivity.
  now split.
Defined.

End Dispatcher.

(** ** More on outbound authentication *)

Module Signer.
Import Relay Worker.

(** The whole of [get_auth_headers], once [validate_config] has run. *)
Lemma get_auth_headers_table self config :
  get_auth_headers (validate_config self) config =
    if decide (rapidsms_auth_method config = Some (u "basic")) then
      match rapidsms_username config with
      | Some name =>
          generate_basic_auth_headers (Some name) (rapidsms_password config)
      | None => Ok ∅
      end
    else Raise (ConfigError (rapidsms_auth_method config)).
Proof.
  destruct (decide _) as [Hm|Hm].
  - destruct (rapidsms_username config) as [name|] eqn:Hu.
    + now apply AuthHeaders.get_auth_headers_basic.
    + unfold get_auth_headers. rewrite Hm, Hu. cbn [get_method].
      rewrite AuthHeaders.registry_basic.
      now rewrite bool_decide_eq_true_2 by now eexists.
  - unfold get_auth_headers.
    assert (Hn : get_method (supported_auth_methods (validate_config self))
                   (rapidsms_auth_method config) = None).
    { destruct (rapidsms_auth_method config) as [m|]; [|reflexivity].
      apply AuthHeaders.registry_other. congruence. }
    rewrite Hn. rewrite bool_decide_eq_false_2; [reflexivity|]. now intros [? ?].
Qed.

(** X1: after [validate_config], [get_auth_headers] returns headers
    exactly when the method is "basic" and either no username is set or a
    password is set too; otherwise it raises [ConfigError] (method not
    "basic") or [TypeError] ("basic", a username, no password), and
    nothing else. *)
Theorem get_auth_headers_outcomes self config :
  ((exists headers, get_auth_headers (validate_config self) config = Ok headers)
     <-> rapidsms_auth_method config = Some (u "basic") /\
         (rapidsms_username config = None \/ rapidsms_password config <> None)) /\
  (forall e, get_auth_headers (validate_config self) config = Raise e ->
     (e = ConfigError (rapidsms_auth_method config) /\
      rapidsms_auth_method config <> Some (u "basic")) \/
     (e = TypeError /\ rapidsms_auth_method config = Some (u "basic") /\
      rapidsms_username config <> None /\ rapidsms_password config = None)).
Proof.
  rewrite get_auth_headers_table.
  destruct (decide _) as [Hm|Hm].
  - destruct (rapidsms_username config) as [name|];
      [destruct (rapidsms_password config) as [password|]|]; cbn.
    + split; [|intros e [=]]. split; [intros _|eauto].
      split; [assumption|]. now right.
    + split; [|intros e [= <-]; right; now repeat split].
      split; [intros [? [=]]|]. intros [_ [[=]|Hp]]. now destruct Hp.
    + split; [|intros e [=]]. split; [intros _|eauto].
      split; [assumption|]. now left.
  - split; [|intros e [= <-]; now left].
    split; [intros [? [=]]|]. now intros [? _].
Qed.

Lemma get_auth_headers_outcomes_witness :
  exists headers,
    get_auth_headers (validate_config (new_worker defaults))
      (rapidsms_auth (Some (u "basic")) None (Some (u "unused"))) = Ok headers.
Proof.
  apply (get_auth_headers_outcomes (new_worker defaults)
           (rapidsms_auth (Some (u "basic")) None (Some (u "unused")))).
  split; [reflexivity | now left].
Defined.

Lemma chr_in_alphabet (s : Base64.sextet) : Base64.chr s ∈ Base64.alphabet.
Proof.
  destruct s as [[] [] [] [] [] []];
    apply (bool_decide_unpack _); vm_compute; exact I.
Qed.

Lemma pad_is_base64_char : base64_char Base64.pad.
Proof. now right. Qed.

Lemma chr_is_base64_char (s : Base64.sextet) : base64_char (Base64.chr s).
Proof. left. apply chr_in_alphabet. Qed.

Lemma encode_bytes_chars (l : list ascii) :
  Forall base64_char (Base64.encode_bytes l).
Proof.
  induction l as [|a|a b|a b c l IH] using Base64Facts.list_ind3;
    cbn [Base64.encode_bytes];
    repeat first [ apply Forall_nil_2 | exact IH
                 | apply Forall_cons; split;
                   [first [apply chr_is_base64_char | apply pad_is_base64_char]|] ].
Qed.

Lemma encode_bytes_length (l : list ascii) :
  length (Base64.encode_bytes l) = 4 * ((length l + 2) / 3).
Proof.
  induction l as [|a|a b|a b c l IH] using Base64Facts.list_ind3;
    try reflexivity.
  cbn [Base64.encode_bytes length]. rewrite IH.
  replace (S (S (S (length l))) + 2) with (length l + 2 + 1 * 3) by lia.
  rewrite Nat.div_add by easy. lia.
Qed.

Lemma length_string_of_list_ascii (l : list ascii) :
  String.length (string_of_list_ascii l) = length l.
Proof. induction l as [|c l IH]; cbn; [reflexivity | now rewrite IH]. Qed.

Lemma base64_char_no_line_break (c : ascii) :
  base64_char c -> c <> "010"%char /\ c <> "013"%char.
Proof.
  intros [Hc| ->]; [|split; discriminate].
  split; intros ->; revert Hc; apply (bool_decide_eq_false_1 _); reflexivity.
Qed.

(** X2: whatever the configured username and password contain, the
    headers that [get_auth_headers] returns are either none or the single
    header [Authorization: Basic <token>], where the token is made of
    base64 characters only (so it holds no line break) and its length is a
    multiple of four. *)
Theorem headers_are_basic_tokens self config headers :
  get_auth_headers (validate_config self) config = Ok headers ->
  headers = ∅ \/
  exists token,
    headers = {[ "Authorization" := ["Basic " +:+ token] ]} /\
    Forall base64_char (list_ascii_of_string token) /\
    (forall c, c ∈ list_ascii_of_string token ->
       c <> "010"%char /\ c <> "013"%char) /\
    String.length token `mod` 4 = 0.
Proof.
  rewrite get_auth_headers_table. destruct (decide _) as [_|_]; [|intros [=]].
  destruct (rapidsms_username config) as [name|]; [|intros [= <-]; now left].
  destruct (rapidsms_password config) as [password|]; [|intros [=]].
  unfold generate_basic_auth_headers. cbn [join bind].
  intros [= <-]. right. eexists. split; [reflexivity|].
  unfold Base64.b64encode. rewrite list_ascii_of_string_of_list_ascii.
  assert (Hchars := encode_bytes_chars
            (list_ascii_of_string (Utf8.encode (name ++ u ":" ++ password)))).
  split; [exact Hchars|]. split.
  - intros c Hc. apply base64_char_no_line_break.
    now apply (proj1 (Forall_forall _ _) Hchars).
  - rewrite length_string_of_list_ascii, encode_bytes_length.
    rewrite Nat.mul_comm. apply Nat.Div0.mod_mul.
Qed.

Lemma headers_are_basic_tokens_witness :
  ({[ "Authorization" := ["Basic dTpw"] ]} : Headers) = ∅ \/
  exists token,
    ({[ "Authorization" := ["Basic dTpw"] ]} : Headers)
      = {[ "Authorization" := ["Basic " +:+ token] ]} /\
    Forall base64_char (list_ascii_of_string token) /\
    (forall c, c ∈ list_ascii_of_string token ->
       c <> "010"%char /\ c <> "013"%char) /\
    String.length token `mod` 4 = 0.
Proof.
  apply (headers_are_basic_tokens (new_worker defaults)
           (rapidsms_auth (Some (u "basic")) (Some (u "u")) (Some (u "p")))).
  reflexivity.
Defined.

(** X3: a colon can move from the username to the password without a
    trace: username [a:b] with password [c] and username [a] with password
    [b:c] are signed with the same header, although the usernames differ. *)
Theorem colon_moves_between_fields (a b c : text) :
  generate_basic_auth_headers (Some (a ++ colon :: b)) (Some c)
    = generate_basic_auth_headers (Some a) (Some (b ++ colon :: c)) /\
  a ++ colon :: b <> a.
Proof.
  split.
  - unfold generate_basic_auth_headers. cbn [join bind].
    now rewrite <- !app_assoc.
  - intros H. apply (f_equal length) in H. rewrite length_app in H.
    cbn in H. lia.
Qed.






Lemma encode_ascii (s : string) : ascii_only s -> Utf8.encode (u s) = s.
Proof.
  unfold ascii_only, Utf8.encode, Utf8.encode_list, u.
  induction s as [|c s IH]; cbn [list_ascii_of_string map flat_map];
    intros H; [reflexivity|].
  apply Forall_cons in H as [Hc Hs].
  unfold Utf8.encode_codepoint at 1.
  destruct (N.ltb_spec (N_of_ascii c) 128) as [_|Hge]; [|lia].
  cbn [app string_of_list_ascii]. unfold Utf8.byte.
  now rewrite ascii_N_embedding, IH.
Qed.

(** X5: for a username and a password given as ASCII byte strings, the
    header is the classical one: [Basic] followed by the base64 of the
    bytes [username:password]. *)
Theorem ascii_credentials_classical_header (username password : string) :
  ascii_only username -> ascii_only password ->
  generate_basic_auth_headers (Some (u username)) (Some (u password))
    = Ok {[ "Authorization" :=
              ["Basic " +:+ Base64.b64encode (username +:+ ":" +:+ password)] ]}.
Proof.
  intros Hu Hp. unfold generate_basic_auth_headers. cbn [join bind].
  rewrite !AuthHeaders.encode_app, AuthHeaders.encode_colon.
  now rewrite !encode_ascii.
Qed.

Lemma ascii_credentials_classical_header_witness :
  generate_basic_auth_headers (Some (u "rapidsms")) (Some (u "s3cret"))
    = Ok {[ "Authorization" := ["Basic cmFwaWRzbXM6czNjcmV0"] ]}.
Proof.
  apply (ascii_credentials_classical_header "rapidsms" "s3cret");
    repeat constructor.
Defined.

End Signer.

(** ** More on inbound authentication *)

Module Gatekeeper.
Import Relay Worker.

(** X6: a relay configured with a username but no password lets nobody
    in: every credential, anonymous or not, is refused. *)
Theorem username_without_password_locks_out
    (get_config : option Message -> option ConfigContext -> RapidSMSRelayConfig)
    (creds : Credentials) :
  (forall ctx, vumi_username (get_config None ctx) <> None) ->
  (forall ctx, vumi_password (get_config None ctx) = None) ->
  get_avatar_id get_config creds = Raise UnauthorizedLogin.
Proof.
  intros Hu Hp. destruct creds as [|name password|]; cbn.
  - destruct (vumi_username _) eqn:E; [reflexivity|]. now apply Hu in E.
  - rewrite Hp, (bool_decide_eq_false_2 (Some password = None)) by discriminate.
    now rewrite andb_false_r.
  - reflexivity.
Qed.

(** A relay with a username and no password. *)
Lemma username_without_password_locks_out_witness :
  get_avatar_id
    (fun _ _ => rapidsms_auth None None None) Anonymous = Ok None /\
  get_avatar_id
    (fun _ ctx =>
       {| web_path := None; web_port := None; redis_manager := JNull;
          allow_replies := true;
          vumi_username := Some (u "user"); vumi_password := None;
          vumi_auth_method := None; vumi_reply_timeout := None;
          rapidsms_url := None; rapidsms_username := None;
          rapidsms_password := None; rapidsms_auth_method := None;
          rapidsms_http_method := None |})
    (UsernamePassword (u "user") (u "")) = Raise UnauthorizedLogin.
Proof.
  split; [reflexivity|].
  apply username_without_password_locks_out; [discriminate | reflexivity].
Defined.

(** X7: while no username is configured for the context of a login name,
    credentials with that name are refused whatever the password: only
    anonymous requests pass an open relay. *)
Theorem open_relay_refuses_passwords
    (get_config : option Message -> option ConfigContext -> RapidSMSRelayConfig)
    (name password : text) :
  vumi_username (get_config None (Some {| username := Some name |})) = None ->
  get_avatar_id get_config (UsernamePassword name password)
    = Raise UnauthorizedLogin /\
  (vumi_username (get_config None (Some {| username := None |})) = None ->
   get_avatar_id get_config Anonymous = Ok None).
Proof.
  intros Hu. split.
  - cbn. rewrite Hu.
    now rewrite (bool_decide_eq_false_2 (Some name = None)) by discriminate.
  - intros Ha. cbn. now rewrite Ha.
Qed.

Lemma open_relay_refuses_passwords_witness :
  get_avatar_id (fun _ _ => defaults) (UsernamePassword (u "user") (u "secret"))
    = Raise UnauthorizedLogin.
Proof.
  apply (open_relay_refuses_passwords (fun _ _ => defaults) (u "user") (u "secret")).
  reflexivity.
Defined.

End Gatekeeper.

(** ** More on the dispatch of outbound requests *)

Module Fanout.
Import Relay Worker.

Lemma assoc_filter_other (key k : text) (members : list (text * json)) :
  key <> k ->
  assoc key (filter (fun kv => kv.1 <> k) members) = assoc key members.
Proof.
  intros Hne. induction members as [|[k' v] members IH]; [reflexivity|].
  rewrite filter_cons. cbn [fst]. destruct (decide (k' <> k)) as [Hk|Hk].
  - cbn [assoc]. now rewrite IH.
  - cbn [assoc]. rewrite IH.
    destruct (decide (k' = key)) as [->|_]; [|reflexivity].
    exfalso. apply Hk. congruence.
Qed.

Lemma getitem_without (key k : text) (data : json) :
  key <> k -> getitem (without k data) key = getitem data key.
Proof.
  intros Hne. destruct data; try reflexivity.
  cbn [without getitem]. now rewrite assoc_filter_other.
Qed.

(** Of the decoded body, the dispatch reads [content] and [to_addr] and
    nothing else; of the worker, nothing. *)
Lemma handle_reads_two_members self self' request request' data data' :
  Relay.content request = Some data ->
  Relay.content request' = Some data' ->
  getitem data (u "content") = getitem data' (u "content") ->
  getitem data (u "to_addr") = getitem data' (u "to_addr") ->
  handle_raw_outbound_message self request
    = handle_raw_outbound_message self' request'.
Proof.
  intros Hd Hd' Hc Ht. unfold handle_raw_outbound_message.
  rewrite Hd, Hd', Hc, Ht.
  destruct (getitem data' (u "content")); cbn [bind]; [|reflexivity].
  destruct (getitem data' (u "to_addr")); cbn [bind]; [|reflexivity].
  now rewrite !andb_false_r.
Qed.

(** X8: [in_reply_to] is ignored.  Taking the member out of the body
    changes nothing in what [handle_raw_outbound_message] returns, for
    any body and for any two workers (whatever their stores and their
    [allow_replies]). *)
Theorem in_reply_to_is_ignored self self' request :
  handle_raw_outbound_message self'
    (with_content (without (u "in_reply_to") <$> Relay.content request) request)
  = handle_raw_outbound_message self request.
Proof.
  destruct (Relay.content request) as [data|] eqn:Hd.
  - symmetry.
    apply (handle_reads_two_members self self' request _ data
             (without (u "in_reply_to") data)); [exact Hd|reflexivity| |];
      symmetry; apply getitem_without; discriminate.
  - unfold handle_raw_outbound_message. now rewrite Hd.
Qed.

(** X9: the ways [handle_raw_outbound_message] fails on a body that
    [json.loads] has decoded, and their order: [TypeError] for a body that
    is not an object, [KeyError] for a missing [content] (also when
    [to_addr] is missing too), [KeyError] for a missing [to_addr], and
    [TypeError] for a [to_addr] that cannot be iterated.  On a decoded
    body it never fails otherwise; in particular the unbound name of the
    reply branch is never evaluated. *)
Theorem dispatch_failures self request data e :
  Relay.content request = Some data ->
  handle_raw_outbound_message self request = Raise e ->
  ((forall members, data <> JObject members) /\ e = TypeError) \/
  (exists members, data = JObject members /\
     assoc (u "content") members = None /\ e = KeyError (u "content")) \/
  (exists members, data = JObject members /\
     is_Some (assoc (u "content") members) /\
     assoc (u "to_addr") members = None /\ e = KeyError (u "to_addr")) \/
  (exists members to_addrs, data = JObject members /\
     is_Some (assoc (u "content") members) /\
     assoc (u "to_addr") members = Some to_addrs /\
     iter to_addrs = Raise TypeError /\ e = TypeError).
Proof.
  intros Hd. unfold handle_raw_outbound_message. rewrite Hd. intros H.
  destruct data as [|b|lexeme|s|items|members]; cbn [getitem bind] in H;
    try (injection H as <-; left; split; congruence).
  right.
  destruct (assoc (u "content") members) as [c|] eqn:Hc; cbn [bind] in H;
    [|injection H as <-; left; now eexists].
  right.
  destruct (assoc (u "to_addr") members) as [t|] eqn:Ht; cbn [bind] in H;
    [|injection H as <-; left; eexists; repeat split; eauto].
  right. rewrite andb_false_r in H.
  destruct (iter t) as [addrs|e'] eqn:Hi; cbn [bind] in H; [discriminate H|].
  injection H as <-. assert (e' = TypeError) as ->.
  { destruct t; cbn in Hi; congruence. }
  exists members, t. repeat split; eauto.
Qed.

Lemma dispatch_failures_witness :
  exists members,
    JObject [(u "to_addr", JArray [])] = JObject members /\
    assoc (u "content") members = None /\
    KeyError (u "content") = KeyError (u "content").
Proof.
  destruct (dispatch_failures (new_worker defaults)
              (request_with (JObject [(u "to_addr", JArray [])]))
              (JObject [(u "to_addr", JArray [])])
              (KeyError (u "content")) eq_refl eq_refl)
    as [[_ [=]]|[H|[(? & _ & _ & _ & [=])|(? & ? & _ & _ & _ & _ & [=])]]].
  exact H.
Defined.

Section Responses.
Variable to_json : json -> string.

(** X10: while fewer sends have completed than there are recipients, the
    Deferred of [handle_raw_outbound_message] has not fired and the
    request is left unanswered: no status code is set, nothing is written,
    the request is not finished. *)
Theorem no_response_before_last_send self request data content to_addrs
    (events : list (nat * outcome Message)) :
  Relay.content request = Some data ->
  getitem data (u "content") = Ok content ->
  getitem data (u "to_addr") = Ok (JArray to_addrs) ->
  length events < length to_addrs ->
  exists dispatch pending,
    handle_raw_outbound_message self request = Ok dispatch /\
    result_after dispatch events = None /\
    render_ to_json self request events = Ok (NotDoneYet pending) /\
    responseCode pending = responseCode request /\
    written pending = written request /\
    finished pending = finished request.
Proof.
  intros Hd Hc Ht Hlen. eexists _, _. split; [|split; [|split]].
  - now apply (Dispatcher.handle_raw_outbound_message_sends self request data
                 content (JArray to_addrs) to_addrs).
  - unfold result_after. cbn [d]. unfold fresh_sends. rewrite length_map.
    rewrite TwistedFacts.run_not_called; [reflexivity| |].
    + cbn. destruct to_addrs; [cbn in Hlen; lia | reflexivity].
    + cbn [init resultList finishedCount]. rewrite length_replicate. lia.
  - now apply (Dispatcher.render_pending to_json self request data content
                 to_addrs events).
  - now repeat split.
Qed.

Lemma dispatched_failed (outs : list (outcome Message)) :
  Forall failed_send outs -> dispatched outs = [].
Proof.
  induction 1 as [|[msg|reason] outs Ho _ IH]; [reflexivity|easy|exact IH].
Qed.

(** X11: when every send fails, the caller still gets 200, and the body
    is the empty JSON array: the very response of a request with no
    recipient at all. *)
Theorem total_failure_answers_empty_array self request data content to_addrs
    (outs : list (outcome Message)) events :
  Relay.content request = Some data ->
  getitem data (u "content") = Ok content ->
  getitem data (u "to_addr") = Ok (JArray to_addrs) ->
  length outs = length to_addrs ->
  events ≡ₚ imap pair outs ->
  Forall failed_send outs ->
  render_ to_json self request events
    = Ok (Finished (answered to_json request [])) /\
  responseCode (answered to_json request []) = Some 200%N /\
  written (answered to_json request [])
    = written request ++ [to_json (JArray [])].
Proof.
  intros Hd Hc Ht Hlen Hp Hf. split; [|now split].
  rewrite <- (dispatched_failed outs Hf).
  now apply (Dispatcher.render_settled to_json self request data content
               to_addrs outs events).
Qed.

(** X12: a [to_addr] that is a string instead of a list is not refused:
    the message is sent once to every character of the string. *)
Theorem string_to_addr_is_sent_per_character self request data content
    (s : text) :
  Relay.content request = Some data ->
  getitem data (u "content") = Ok content ->
  getitem data (u "to_addr") = Ok (JString s) ->
  exists dispatch,
    handle_raw_outbound_message self request = Ok dispatch /\
    sends dispatch = (fun c => SendTo (JString [c]) content) <$> s /\
    length (sends dispatch) = length s.
Proof.
  intros Hd Hc Ht. eexists. split; [|split].
  - now apply (Dispatcher.handle_raw_outbound_message_sends self request data
                 content (JString s) ((fun c => JString [c]) <$> s)).
  - cbn [sends]. unfold fresh_sends. now rewrite <- list_fmap_compose.
  - cbn [sends]. unfold fresh_sends. now rewrite length_map, length_fmap.
Qed.

End Responses.

Lemma no_response_before_last_send_witness :
  exists dispatch pending,
    handle_raw_outbound_message (new_worker defaults)
      (request_with (body "hi" ["A"; "B"] None)) = Ok dispatch /\
    result_after dispatch [(1, Success (sent "B" "hi"))] = None /\
    render_ (fun _ => "[]") (new_worker defaults)
      (request_with (body "hi" ["A"; "B"] None))
      [(1, Success (sent "B" "hi"))] = Ok (NotDoneYet pending) /\
    responseCode pending = None /\
    written pending = [] /\
    finished pending = false.
Proof.
  apply (no_response_before_last_send (fun _ => "[]") (new_worker defaults)
           (request_with (body "hi" ["A"; "B"] None))
           (body "hi" ["A"; "B"] None) (JString (u "hi"))
           [JString (u "A"); JString (u "B")]
           [(1, Success (sent "B" "hi"))]); try reflexivity.
  cbn. lia.
Defined.

Lemma total_failure_answers_empty_array_witness :
  render_ (fun _ => "[]") (new_worker defaults)
    (request_with (body "hi" ["A"; "B"] None))
    [(1, Errback (failure "no route")); (0, Errback (failure "timeout"))]
  = Ok (Finished (answered (fun _ => "[]")
                    (request_with (body "hi" ["A"; "B"] None)) [])).
Proof.
  apply (total_failure_answers_empty_array (fun _ => "[]") (new_worker defaults)
           (request_with (body "hi" ["A"; "B"] None))
           (body "hi" ["A"; "B"] None) (JString (u "hi"))
           [JString (u "A"); JString (u "B")]
           [Errback (failure "timeout"); Errback (failure "no route")]);
    try reflexivity.
  - apply perm_swap.
  - repeat constructor.
Defined.

Lemma string_to_addr_is_sent_per_character_witness :
  exists dispatch,
    handle_raw_outbound_message (new_worker defaults)
      (request_with (JObject [(u "content", JString (u "hi"));
                              (u "to_addr", JString (u "+41"))])) = Ok dispatch /\
    sends dispatch
      = (fun c => SendTo (JString [c]) (JString (u "hi"))) <$> u "+41" /\
    length (sends dispatch) = 3.
Proof.
  apply (string_to_addr_is_sent_per_character (new_worker defaults)
           (request_with (JObject [(u "content", JString (u "hi"));
                                   (u "to_addr", JString (u "+41"))]))
           (JObject [(u "content", JString (u "hi"));
                     (u "to_addr", JString (u "+41"))])
           (JString (u "hi")) (u "+41")); reflexivity.
Defined.

End Fanout.

(** ** More on forwarding to RapidSMS *)

Module Outbound.
Import Relay Worker.

Section Forward.
Variable message_to_json : Message -> string.
Variable get_config :
  option Message -> option ConfigContext -> RapidSMSRelayConfig.
Variable http_request_full :
  string -> string -> Headers -> option text -> outcome Response.

(** Once a response or a failure has gone through the two callbacks, the
    call has succeeded and one line is logged. *)
Lemma callbacks_absorb (response : outcome Response) :
  (let '(response, log1) :=
     addCallback response (fun response => [info (code response)]) in
   let '(response, log2) :=
     addErrback response (fun reason => [err reason]) in
   (yield_ response, log1 ++ log2)) = (Ok tt, [logged response]).
Proof. now destruct response as [[c]|[reason]]. Qed.

(** X13: [_call_rapidsms] succeeds, with exactly one line logged, exactly
    when the method is "basic", a password comes with the username if
    there is one, and the URL is set.  Otherwise it raises, nothing is
    logged, and the error is [ConfigError] for another method (whatever
    else is wrong), else [TypeError] for a username without password, else
    [AttributeError] for the missing URL. *)
Theorem call_rapidsms_outcomes self message :
  let config := get_config (Some message) None in
  let r := _call_rapidsms message_to_json get_config http_request_full
             (validate_config self) message in
  (r.1 = Ok tt <->
     rapidsms_auth_method config = Some (u "basic") /\
     (rapidsms_username config = None \/ rapidsms_password config <> None) /\
     rapidsms_url config <> None) /\
  (r.1 = Ok tt -> length r.2 = 1) /\
  (forall e, r.1 = Raise e ->
     r.2 = [] /\
     ((e = ConfigError (rapidsms_auth_method config) /\
       rapidsms_auth_method config <> Some (u "basic")) \/
      (e = TypeError /\ rapidsms_auth_method config = Some (u "basic") /\
       rapidsms_username config <> None /\ rapidsms_password config = None) \/
      (e = AttributeError /\ rapidsms_auth_method config = Some (u "basic") /\
       (rapidsms_username config = None \/ rapidsms_password config <> None) /\
       rapidsms_url config = None))).
Proof.
  intros config r. subst r. unfold _call_rapidsms. fold config.
  rewrite Signer.get_auth_headers_table.
  destruct (decide _) as [Hm|Hm]; cbn [bind].
  - destruct (rapidsms_username config) as [name|] eqn:Hu;
      [destruct (rapidsms_password config) as [password|] eqn:Hp|];
      unfold generate_basic_auth_headers; cbn [join bind];
      try destruct (rapidsms_url config) as [url|] eqn:Hurl; cbn [geturl bind];
      rewrite ?callbacks_absorb; cbn [fst snd length];
      (split; [split|split]);
      try solve
        [ intros _; repeat split; eauto; congruence
        | reflexivity
        | intros [=]
        | intros e [=]
        | intros (_ & _ & H); now destruct H
        | intros (_ & [[=]|H] & _); now destruct H
        | intros e [= <-]; split; [reflexivity|]; right; right;
          repeat split; eauto; right; congruence
        | intros e [= <-]; split; [reflexivity|]; right; right;
          repeat split; eauto
        | intros e [= <-]; split; [reflexivity|]; right; left;
          repeat split; congruence ].
  - split; [split|split]; cbn [fst snd].
    + intros [=].
    + now intros [? _].
    + intros [=].
    + intros e [= <-]. split; [reflexivity|]. now left.
Qed.

(** X14: what [_call_rapidsms] sends.  With the "basic" method and a
    [rapidsms_url] set, the request goes to [rapidsms_url.geturl()] (the
    text [url] of the parsed URL) with the serialized message and the
    configured HTTP method; it carries no header when no username is
    configured, and exactly the Basic header of the configured username
    and password otherwise. *)
Theorem forward_carries_configured_credentials self message url :
  let config := get_config (Some message) None in
  rapidsms_auth_method config = Some (u "basic") ->
  rapidsms_url config = Some url ->
  (rapidsms_username config = None ->
   _call_rapidsms message_to_json get_config http_request_full
     (validate_config self) message
   = (Ok tt, [logged (http_request_full url (message_to_json message) ∅
                        (rapidsms_http_method config))])) /\
  (forall name password,
     rapidsms_username config = Some name ->
     rapidsms_password config = Some password ->
     _call_rapidsms message_to_json get_config http_request_full
       (validate_config self) message
     = (Ok tt,
        [logged (http_request_full url (message_to_json message)
                   {[ "Authorization" :=
                        ["Basic " +:+
                         Base64.b64encode
                           (Utf8.encode (name ++ u ":" ++ password))] ]}
                   (rapidsms_http_method config))])).
Proof.
  intros config Hm Hurl. split.
  - intros Hu. unfold _call_rapidsms. fold config.
    rewrite Signer.get_auth_headers_table, decide_True, Hu, Hurl by assumption.
    cbn [bind geturl]. apply callbacks_absorb.
  - intros name password Hu Hp. unfold _call_rapidsms. fold config.
    rewrite Signer.get_auth_headers_table, decide_True, Hu, Hp, Hurl
      by assumption.
    unfold generate_basic_auth_headers. cbn [join bind geturl].
    apply callbacks_absorb.
Qed.

End Forward.

Lemma call_rapidsms_outcomes_witness :
  (_call_rapidsms (fun _ => "{}") to_rapidsms
     (fun _ _ _ _ => Errback (failure "connection refused"))
     (validate_config (new_worker defaults)) hello).1 = Ok tt.
Proof.
  apply (call_rapidsms_outcomes (fun _ => "{}") to_rapidsms
           (fun _ _ _ _ => Errback (failure "connection refused"))
           (new_worker defaults) hello).
  split; [reflexivity|]. split; [now right | discriminate].
Defined.

Lemma forward_carries_configured_credentials_witness :
  _call_rapidsms (fun _ => "{}") to_rapidsms
    (fun url body headers method =>
       match headers !! "Authorization" with
       | Some ["Basic dTpw"] => Success {| code := 200 |}
       | _ => Success {| code := 401 |}
       end)
    (validate_config (new_worker defaults)) hello
  = (Ok tt, [info 200]).
Proof.
  destruct (forward_carries_configured_credentials (fun _ => "{}") to_rapidsms
              (fun url body headers method =>
                 match headers !! "Authorization" with
                 | Some ["Basic dTpw"] => Success {| code := 200 |}
                 | _ => Success {| code := 401 |}
                 end)
              (new_worker defaults) hello "http://example.com/rapidsms")
    as [_ H]; [reflexivity | reflexivity |].
  exact (H (u "u") (u "p") eq_refl eq_refl).
Defined.

End Outbound.

(** ** Start-up, shutdown and the event callbacks *)

Module Lifecycle.
Import Relay Worker.

(** X15: shutdown mirrors start-up.  After [setup_application], whatever
    the worker held before, [teardown_application] first closes the HTTP
    listener and then, exactly when [allow_replies] is set, closes the
    manager that start-up built from [redis_manager]; and start-up leaves
    the registry of [validate_config] alone, in whichever order the two
    run. *)
Theorem teardown_closes_what_setup_opened
    (from_config : json -> TxRedisManager) (self : RapidSMSRelay) :
  teardown_application (setup_application from_config self)
    = (if allow_replies (static_config self)
       then [loseConnection;
             close_manager (from_config (redis_manager (static_config self)))]
       else [loseConnection]) /\
  setup_application from_config (validate_config self)
    = validate_config (setup_application from_config self) /\
  teardown_application (setup_application from_config (validate_config self))
    = teardown_application (setup_application from_config self).
Proof.
  unfold teardown_application, setup_application, validate_config. cbn.
  destruct (allow_replies (static_config self)); now repeat split.
Qed.

(** X16: the two event callbacks only log.  On an event whose payload is
    an object, [consume_ack] logs one line exactly when the event carries
    [user_message_id], and [consume_delivery_report] exactly when it
    carries [delivery_status] as well; a missing field is a [KeyError],
    reported for [user_message_id] first, and then nothing is logged. *)
Theorem event_callbacks_need_their_fields (event : Message) members :
  payload event = JObject members ->
  ((exists line, consume_ack event = Ok [line])
     <-> is_Some (assoc (u "user_message_id") members)) /\
  ((exists line, consume_delivery_report event = Ok [line])
     <-> is_Some (assoc (u "user_message_id") members) /\
         is_Some (assoc (u "delivery_status") members)) /\
  (assoc (u "user_message_id") members = None ->
     consume_ack event = Raise (KeyError (u "user_message_id")) /\
     consume_delivery_report event = Raise (KeyError (u "user_message_id"))) /\
  (is_Some (assoc (u "user_message_id") members) ->
   assoc (u "delivery_status") members = None ->
     consume_delivery_report event = Raise (KeyError (u "delivery_status"))).
Proof.
  intros Hp. unfold consume_ack, consume_delivery_report. rewrite Hp.
  cbn [getitem].
  destruct (assoc (u "user_message_id") members) as [id|];
    destruct (assoc (u "delivery_status") members) as [status|]; cbn [bind];
    (split; [split|split; [split|split]]);
    try solve [ eauto | intros [? [=]] | intros [=] | intros [? ?]; eauto
              | intros [[? [=]] ?] | intros [? [? [=]]] | intros [? [=]] [=]
              | intros _; split; eauto | intros [[? [=]] _]
              | intros [_ [? [=]]] | intros _ [=] | intros _ _; reflexivity
              | intros [? [=]] _ ].
Qed.

Lemma event_callbacks_need_their_fields_witness :
  consume_delivery_report
    {| payload := JObject [(u "user_message_id", JString (u "m1"))] |}
  = Raise (KeyError (u "delivery_status")).
Proof.
  apply (event_callbacks_need_their_fields
           {| payload := JObject [(u "user_message_id", JString (u "m1"))] |}
           [(u "user_message_id", JString (u "m1"))]);
    [reflexivity | now eexists | reflexivity].
Defined.

End Lifecycle.
